(** * Shareable links: link store, click recorder and stats aggregator

    A shallow embedding of [app/models.py], [app/utils.py],
    [app/services.py] and the redirect handler of [app/main.py].

    The two tables are lists of rows in insertion order.  Everything the
    program takes from its surroundings is part of the [World]: the
    random source read by [random.choice], the identifier allocator behind
    [uuid.uuid4], and the wall clock read by [datetime.now].  Service
    functions are computations in a state-and-exception monad over the
    world, so that a raised exception keeps the world it was raised in,
    as in Python. *)

From Stdlib Require Import ZArith NArith List String Ascii Bool Lia.
From Stdlib Require Import Permutation Sorted SpecFloat DecimalString.
Import ListNotations.

Local Open Scope string_scope.
Local Open Scope list_scope.

(* ================================================================== *)
(** * Data model ([app/models.py]) *)
(* ================================================================== *)

(** A Python [datetime]: the seven calendar fields.  Comparison is
    lexicographic on the fields, as for naive datetimes. *)
Record datetime : Type := mk_datetime {
  year : Z;
  month : Z;
  day : Z;
  hour : Z;
  minute : Z;
  second : Z;
  microsecond : Z
}.

(** [MINYEAR = 1], [MAXYEAR = 9999]. *)
Definition MINYEAR : Z := 1.
Definition MAXYEAR : Z := 9999.

Definition is_leap (y : Z) : bool :=
  ((y mod 4 =? 0) && (negb (y mod 100 =? 0) || (y mod 400 =? 0)))%Z.

Definition days_in_month (y m : Z) : Z :=
  if (m =? 2)%Z then (if is_leap y then 29 else 28)%Z
  else if ((m =? 4) || (m =? 6) || (m =? 9) || (m =? 11))%Z then 30%Z
  else 31%Z.

(** The range checks of the [datetime] constructor. *)
Definition valid_datetime (d : datetime) : bool :=
  ((MINYEAR <=? year d) && (year d <=? MAXYEAR) &&
   (1 <=? month d) && (month d <=? 12) &&
   (1 <=? day d) && (day d <=? days_in_month (year d) (month d)) &&
   (0 <=? hour d) && (hour d <? 24) &&
   (0 <=? minute d) && (minute d <? 60) &&
   (0 <=? second d) && (second d <? 60) &&
   (0 <=? microsecond d) && (microsecond d <? 1000000))%Z.

Definition lex (c : comparison) (k : comparison) : comparison :=
  match c with Eq => k | _ => c end.

Definition datetime_compare (a b : datetime) : comparison :=
  lex (year a ?= year b)%Z
  (lex (month a ?= month b)%Z
  (lex (day a ?= day b)%Z
  (lex (hour a ?= hour b)%Z
  (lex (minute a ?= minute b)%Z
  (lex (second a ?= second b)%Z
       (microsecond a ?= microsecond b)%Z))))).

Definition datetime_ltb (a b : datetime) : bool :=
  match datetime_compare a b with Lt => true | _ => false end.

(** [a] is at or after [b]. *)
Definition datetime_ge (a b : datetime) : Prop :=
  datetime_compare a b <> Lt.

(** The session time zone [UTC]: an instant is written as it reads in UTC. *)
Definition utc (d : datetime) : datetime := d.

(** Identifiers: [UUID(as_uuid=True)] columns filled by [uuid.uuid4]. *)
Definition UUID : Type := N.

Module Link.
(** Table [links]. *)
Record t : Type := mk {
    id : UUID;
    short_code : string;
    target_url : string;
    created_at : datetime
}.
End Link.

Module Click.
(** Table [clicks]. *)
Record t : Type := mk {
    id : UUID;
    link_id : UUID;
    clicked_at : datetime
}.
End Click.

(* ================================================================== *)
(** * The world and the monad of service code *)
(* ================================================================== *)

Record World : Type := mk_world {
  links : list Link.t;          (* rows of [links], oldest insert first *)
  clicks : list Click.t;        (* rows of [clicks], oldest insert first *)
  uuid_next : N;                (* [uuid.uuid4]: next unused identifier *)
  entropy : nat -> nat;         (* raw draws of the [random] module *)
  entropy_pos : nat;            (* draws consumed so far *)
  wall_clock : nat -> datetime; (* successive readings of the UTC clock *)
  clock_pos : nat;              (* readings consumed so far *)
  session_zone : datetime -> datetime
    (* the session's [TimeZone]: how PostgreSQL writes an instant given in
       UTC into a [timestamp without time zone] column *)
}.

Definition set_links (ls : list Link.t) (w : World) : World :=
  mk_world ls (clicks w) (uuid_next w) (entropy w) (entropy_pos w)
           (wall_clock w) (clock_pos w) (session_zone w).

Definition set_clicks (cs : list Click.t) (w : World) : World :=
  mk_world (links w) cs (uuid_next w) (entropy w) (entropy_pos w)
           (wall_clock w) (clock_pos w) (session_zone w).

(** A world with empty tables. *)
Definition fresh_world (e : nat -> nat) (c : nat -> datetime)
           (z : datetime -> datetime) : World :=
  mk_world [] [] 0%N e 0 c 0 z.

Inductive exn : Type :=
| IndexError
| IntegrityError
| DataError
| RuntimeError (msg : string)
| HTTPException (status_code : Z) (detail : string).

Inductive res (A : Type) : Type :=
| Ok (a : A)
| Raise (e : exn).
Arguments Ok {A} a.
Arguments Raise {A} e.

Definition M (A : Type) : Type := World -> res A * World.

Definition ret {A} (a : A) : M A := fun w => (Ok a, w).

Definition bind {A B} (c : M A) (k : A -> M B) : M B :=
  fun w =>
    match c w with
    | (Ok a, w') => k a w'
    | (Raise e, w') => (Raise e, w')
    end.

Definition raise {A} (e : exn) : M A := fun w => (Raise e, w).

(** [try: c  except IntegrityError: h] *)
Definition try_except_IntegrityError {A} (c : M A) (h : M A) : M A :=
  fun w =>
    match c w with
    | (Raise IntegrityError, w') => h w'
    | r => r
    end.

Declare Scope monad_scope.
Delimit Scope monad_scope with monad.
Notation "x <- c ;; k" := (bind c (fun x => k))
  (at level 61, c at next level, right associativity) : monad_scope.
Notation "c ;;; k" := (bind c (fun _ => k))
  (at level 61, right associativity) : monad_scope.
Local Open Scope monad_scope.

(** The value an omitted keyword argument takes. *)
Definition arg {A} (default : A) (given : option A) : A :=
  match given with Some v => v | None => default end.

(* ================================================================== *)
(** * [app/utils.py] *)
(* ================================================================== *)

Definition ascii_lowercase : string := "abcdefghijklmnopqrstuvwxyz".
Definition digits : string := "0123456789".

(** [random.choice(seq)]: the element at a random index below [len(seq)];
    [IndexError] on an empty sequence. *)
Definition random_choice (seq : string) : M ascii :=
  fun w =>
    let w' := mk_world (links w) (clicks w) (uuid_next w) (entropy w)
                       (S (entropy_pos w)) (wall_clock w) (clock_pos w)
                       (session_zone w) in
    match String.get (entropy w (entropy_pos w) mod String.length seq) seq with
    | Some c => (Ok c, w')
    | None => (Raise IndexError, w)
    end.

(** ["".join(random.choice(characters) for _ in range(n))] *)
Fixpoint join_choices (n : nat) (characters : string) : M string :=
  match n with
  | O => ret ""
  | S n' =>
      c <- random_choice characters ;;
      rest <- join_choices n' characters ;;
      ret (String c rest)
  end.

Definition generate_short_code (length : option Z) : M string :=
  let length := arg 6%Z length in
  let characters := (ascii_lowercase ++ digits)%string in
  join_choices (Z.to_nat length) characters.

(** The fraud check stub: after its delay it returns [True]. *)
Definition simulate_fraud_check : M bool := ret true.

(* ================================================================== *)
(** * Python floats (IEEE 754 binary64) *)
(* ================================================================== *)

Definition prec : Z := 53.
Definition emax : Z := 1024.
Definition float : Type := spec_float.

(** Conversion of an [int] operand, correctly rounded.  (Python raises
    [OverflowError] past the largest double, which no row count reaches.) *)
Definition float_of_int (n : Z) : float := binary_normalize prec emax n 0 false.

Definition float_mul (x y : float) : float := SFmul prec emax x y.

(** The double nearest to [coeff / 10^ndigits]: what a decimal literal
    or a decimal string with [ndigits] fractional digits denotes. *)
Definition float_of_decimal (sign : bool) (coeff : Z) (ndigits : nat) : float :=
  match coeff with
  | Zpos k =>
      SFdiv prec emax (S754_finite sign k 0)
            (S754_finite false (Z.to_pos (10 ^ Z.of_nat ndigits)) 0)
  | _ => S754_zero sign
  end.

(** [num / den] rounded to the nearest integer, ties to even ([den > 0]). *)
Definition div_half_even (num den : Z) : Z :=
  let q := (num / den)%Z in
  let r := (num mod den)%Z in
  match (2 * r ?= den)%Z with
  | Lt => q
  | Gt => (q + 1)%Z
  | Eq => if Z.even q then q else (q + 1)%Z
  end.

(** [round(x, ndigits)] on a float with a small non-negative [ndigits]:
    the exact value of [x] is rounded half-even to [ndigits] decimals and
    the decimal result is read back as a double.  Infinities and NaN are
    returned unchanged. *)
Definition round (x : float) (ndigits : nat) : float :=
  match x with
  | S754_finite s m e =>
      let scaled := (Zpos m * 10 ^ Z.of_nat ndigits)%Z in
      let k := if (0 <=? e)%Z then (scaled * 2 ^ e)%Z
               else div_half_even scaled (2 ^ (- e))%Z in
      float_of_decimal s k ndigits
  | _ => x
  end.

(* ================================================================== *)
(** * The session: queries and transactions *)
(* ================================================================== *)

(** [uuid.uuid4()]: identifiers never repeat, so the primary keys hold by
    construction and inserts do not re-check them. *)
Definition uuid4 : M UUID :=
  fun w =>
    (Ok (uuid_next w),
     mk_world (links w) (clicks w) (N.succ (uuid_next w)) (entropy w)
              (entropy_pos w) (wall_clock w) (clock_pos w) (session_zone w)).

(** [datetime.now(timezone.utc)] *)
Definition datetime_now_utc : M datetime :=
  fun w =>
    (Ok (wall_clock w (clock_pos w)),
     mk_world (links w) (clicks w) (uuid_next w) (entropy w)
              (entropy_pos w) (wall_clock w) (S (clock_pos w)) (session_zone w)).

(** What a [DateTime] column (a [timestamp without time zone]) keeps of
    the aware UTC datetime it is given: the instant as it reads in the
    session's time zone. *)
Definition stored_timestamp (now : datetime) : M datetime :=
  fun w => (Ok (session_zone w now), w).

(** [Link(short_code=..., target_url=...)] with its column defaults, as
    the row reads once stored. *)
Definition new_Link (short_code target_url : string) : M Link.t :=
  id <- uuid4 ;;
  now <- datetime_now_utc ;;
  created_at <- stored_timestamp now ;;
  ret (Link.mk id short_code target_url created_at).

(** [Click(link_id=...)] with its column defaults, as the row reads once
    stored. *)
Definition new_Click (link_id : UUID) : M Click.t :=
  id <- uuid4 ;;
  now <- datetime_now_utc ;;
  clicked_at <- stored_timestamp now ;;
  ret (Click.mk id link_id clicked_at).

(** [unique=True] on [links.short_code] and on [links.target_url]. *)
Definition violates_unique (l : Link.t) (rows : list Link.t) : bool :=
  existsb (fun r => (Link.short_code r =? Link.short_code l)%string
                    || (Link.target_url r =? Link.target_url l)%string) rows.

(** [ForeignKey("links.id")] on [clicks.link_id]. *)
Definition references_link (c : Click.t) (rows : list Link.t) : bool :=
  existsb (fun r => (Link.id r =? Click.link_id c)%N) rows.

(** [db.add(link); db.commit(); db.refresh(link)]: one transaction that
    inserts the row or raises [IntegrityError] and leaves the tables as
    they were. *)
Definition db_add_commit_link (l : Link.t) : M unit :=
  fun w =>
    if violates_unique l (links w) then (Raise IntegrityError, w)
    else (Ok tt, set_links (links w ++ [l]) w).

Definition db_add_commit_click (c : Click.t) : M unit :=
  fun w =>
    if references_link c (links w) then (Ok tt, set_clicks (clicks w ++ [c]) w)
    else (Raise IntegrityError, w).

(** [db.rollback()]: the failed transaction wrote nothing, and the session
    holds no other pending object. *)
Definition db_rollback : M unit := ret tt.

(** [db.query(Link).filter(p).first()], for a filter whose text parameter
    holds no NUL character.  The driver refuses a parameter that holds
    one with [ValueError] before any row is read; a statement whose
    outcome depends on it assumes [no_NUL] of the parameter. *)
Definition query_link_first (p : Link.t -> bool) : M (option Link.t) :=
  fun w => (Ok (find p (links w)), w).

(** [db.query(Link).count()] *)
Definition query_link_count : M nat :=
  fun w => (Ok (List.length (links w)), w).

(** [db.query(Click).filter(Click.link_id == id).count()] *)
Definition clicks_of (id : UUID) (cs : list Click.t) : list Click.t :=
  filter (fun c => (Click.link_id c =? id)%N) cs.

Definition query_click_count (id : UUID) : M nat :=
  fun w => (Ok (List.length (clicks_of id (clicks w))), w).

(** [ORDER BY created_at DESC]: insertion keeps earlier rows first among
    equal timestamps. *)
Fixpoint insert_desc (l : Link.t) (sorted : list Link.t) : list Link.t :=
  match sorted with
  | [] => [l]
  | x :: rest =>
      if datetime_ltb (Link.created_at l) (Link.created_at x)
      then x :: insert_desc l rest
      else l :: sorted
  end.

Definition order_by_created_at_desc (rows : list Link.t) : list Link.t :=
  fold_right insert_desc [] rows.

(** [OFFSET] and [LIMIT] are [bigint] values: PostgreSQL refuses a
    negative one, and one above the largest [bigint]. *)
Definition bigint_max : Z := 9223372036854775807.

Definition window_refused (offset limit : Z) : bool :=
  ((offset <? 0) || (limit <? 0)
   || (bigint_max <? offset) || (bigint_max <? limit))%Z.

(** [db.query(Link).order_by(Link.created_at.desc()).offset(o).limit(n).all()] *)
Definition query_links_window (offset limit : Z) : M (list Link.t) :=
  fun w =>
    if window_refused offset limit then (Raise DataError, w)
    else (Ok (firstn (Z.to_nat limit)
                (skipn (Z.to_nat offset)
                   (order_by_created_at_desc (links w)))), w).

(** [printf("%0*d", width, n)] *)
Definition zero_pad (width : nat) (s : string) : string :=
  (string_of_list_ascii (repeat "0"%char (width - String.length s)) ++ s)%string.

Definition format_0d (width : nat) (n : Z) : string :=
  let ds := NilZero.string_of_uint (N.to_uint (Z.to_N (Z.abs n))) in
  if (n <? 0)%Z then ("-" ++ zero_pad (width - 1) ds)%string
  else zero_pad width ds.

(** [to_char(ts, 'YYYY-MM')] *)
Definition to_char_YYYY_MM (ts : datetime) : string :=
  (format_0d 4 (year ts) ++ "-" ++ format_0d 2 (month ts))%string.

(** [GROUP BY month ORDER BY month] with [count(id)]: one entry per
    distinct month, kept in ascending order of the month string. *)
Fixpoint tally (m : string) (groups : list (string * nat)) : list (string * nat) :=
  match groups with
  | [] => [(m, 1)]
  | (k, n) :: rest =>
      match String.compare m k with
      | Eq => (k, S n) :: rest
      | Lt => (m, 1) :: groups
      | Gt => (k, n) :: tally m rest
      end
  end.

Definition group_by_month (cs : list Click.t) : list (string * nat) :=
  fold_right (fun c acc => tally (to_char_YYYY_MM (Click.clicked_at c)) acc) [] cs.

Definition query_monthly_data (id : UUID) : M (list (string * nat)) :=
  fun w => (Ok (group_by_month (clicks_of id (clicks w))), w).

(* ================================================================== *)
(** * [app/services.py] *)
(* ================================================================== *)

Definition EARNINGS_PER_CLICK : float := float_of_decimal false 5 2.

Definition max_attempts : nat := 10.

(** The [for _ in range(max_attempts)] loop of [create_link] and the
    [raise] that follows it. *)
Fixpoint create_link_attempts (remaining : nat) (target_url : string)
  : M (Link.t * bool) :=
  match remaining with
  | O =>
      raise (RuntimeError
               "Failed to generate unique short code after multiple attempts")
  | S remaining' =>
      short_code <- generate_short_code None ;;
      link <- new_Link short_code target_url ;;
      try_except_IntegrityError
        (db_add_commit_link link ;;; ret (link, true))
        (db_rollback ;;; create_link_attempts remaining' target_url)
  end.

Definition create_link (target_url : string) : M (Link.t * bool) :=
  existing <- query_link_first
                (fun l => (Link.target_url l =? target_url)%string) ;;
  match existing with
  | Some existing => ret (existing, false)
  | None => create_link_attempts max_attempts target_url
  end.

Definition record_click (link_id : UUID) : M Click.t :=
  click <- new_Click link_id ;;
  db_add_commit_click click ;;;
  ret click.

Definition get_link_by_short_code (short_code : string) : M (option Link.t) :=
  query_link_first (fun l => (Link.short_code l =? short_code)%string).

Module LinkStats.
Record t : Type := mk {
    short_code : string;
    target_url : string;
    total_clicks : nat;
    total_earnings : float;
    monthly_breakdown : list (string * nat)   (* (month, clicks) *)
}.
End LinkStats.

Module Stats.
Record t : Type := mk {
    page : Z;
    limit : Z;
    total_links : nat;
    links : list LinkStats.t
}.
End Stats.

(** The body of [for link in links] in [get_stats]. *)
Definition link_stats (link : Link.t) : M LinkStats.t :=
  total_clicks <- query_click_count (Link.id link) ;;
  monthly_data <- query_monthly_data (Link.id link) ;;
  ret (LinkStats.mk
         (Link.short_code link)
         (Link.target_url link)
         total_clicks
         (round (float_mul (float_of_int (Z.of_nat total_clicks))
                           EARNINGS_PER_CLICK) 2)
         monthly_data).

Fixpoint for_each_link (ls : list Link.t) : M (list LinkStats.t) :=
  match ls with
  | [] => ret []
  | link :: rest =>
      s <- link_stats link ;;
      links_stats <- for_each_link rest ;;
      ret (s :: links_stats)
  end.

Definition get_stats (page limit : option Z) : M Stats.t :=
  let page := arg 1%Z page in
  let limit := arg 20%Z limit in
  let page := if (page <? 1)%Z then 1%Z else page in
  let limit := if (limit >? 100)%Z then 100%Z else limit in
  let offset := ((page - 1) * limit)%Z in
  total_links <- query_link_count ;;
  links <- query_links_window offset limit ;;
  links_stats <- for_each_link links ;;
  ret (Stats.mk page limit total_links links_stats).

(* ================================================================== *)
(** * [app/main.py]: the redirect handler *)
(* ================================================================== *)

(** [urllib.parse.quote(s, safe)]: every character outside the always-safe
    set and outside [safe] is replaced by the percent-encoded bytes of its
    UTF-8 encoding. *)
Definition always_safe : string :=
  "ABCDEFGHIJKLMNOPQRSTUVWXYZabcdefghijklmnopqrstuvwxyz0123456789_.-~".

Definition mem_char (c : ascii) (s : string) : bool :=
  existsb (Ascii.eqb c) (list_ascii_of_string s).

Definition hex_digit (n : nat) : ascii :=
  match String.get n "0123456789ABCDEF" with
  | Some c => c
  | None => "0"%char
  end.

Definition percent_encode (byte : nat) : string :=
  String "%" (String (hex_digit (byte / 16))
                     (String (hex_digit (byte mod 16)) EmptyString)).

Definition utf8_bytes (c : ascii) : list nat :=
  let n := nat_of_ascii c in
  if (n <? 128)%nat then [n] else [192 + n / 64; 128 + n mod 64].

Definition kept_by_quote (safe : string) (c : ascii) : bool :=
  (nat_of_ascii c <? 128)%nat && (mem_char c always_safe || mem_char c safe).

Fixpoint quote (s safe : string) : string :=
  match s with
  | EmptyString => EmptyString
  | String c rest =>
      ((if kept_by_quote safe c then String c EmptyString
        else String.concat "" (map percent_encode (utf8_bytes c)))
       ++ quote rest safe)%string
  end.

(** A response as the client sees it: the status and the [Location]
    header. *)
Record Response : Type := mk_response {
  status_code : Z;
  location : string
}.

(** Starlette's [RedirectResponse(url, status_code)]: the [Location]
    header is [quote(str(url), safe=":/%#?=@[]!$&'()*+,;")]. *)
Definition redirect_safe : string := ":/%#?=@[]!$&'()*+,;".

Definition RedirectResponse (url : string) (status_code : Z) : Response :=
  mk_response status_code (quote url redirect_safe).

Definition redirect_short_link (short_code : string) : M Response :=
  link <- get_link_by_short_code short_code ;;
  match link with
  | None => raise (HTTPException 404 "Short link not found")
  | Some link =>
      is_valid <- simulate_fraud_check ;;
      if negb is_valid
      then raise (HTTPException 403 "Click failed fraud validation")
      else
        record_click (Link.id link) ;;;
        ret (RedirectResponse (Link.target_url link) 302)
  end.

(** A call made on the service, and the world it leaves behind. *)
Inductive call : Type :=
| CreateLink (target_url : string)
| RecordClick (link_id : UUID)
| GetStats (page limit : option Z)
| Redirect (short_code : string).

Definition after (c : call) (w : World) : World :=
  match c with
  | CreateLink u => snd (create_link u w)
  | RecordClick i => snd (record_click i w)
  | GetStats p l => snd (get_stats p l w)
  | Redirect s => snd (redirect_short_link s w)
  end.

Definition after_all (cs : list call) (w : World) : World :=
  fold_left (fun w c => after c w) cs w.

(* ================================================================== *)
(** * Specification vocabulary *)
(* ================================================================== *)

(** The character class [[a-z0-9]]. *)
Definition in_alphabet (c : ascii) : bool :=
  let n := nat_of_ascii c in
  (((97 <=? n) && (n <=? 122)) || ((48 <=? n) && (n <=? 57)))%nat.

(** Exactly six characters, each from [[a-z0-9]]. *)
Definition well_formed_code (s : string) : bool :=
  (String.length s =? 6)%nat && forallb in_alphabet (list_ascii_of_string s).

(** The codes of a table are well formed and pairwise distinct. *)
Definition codes_ok (rows : list Link.t) : Prop :=
  Forall (fun l => well_formed_code (Link.short_code l) = true) rows /\
  NoDup (map Link.short_code rows).

(** What one pass of the retry loop reads from its surroundings: six
    random draws, one identifier and one clock reading. *)
Definition alphabet : string := (ascii_lowercase ++ digits)%string.

Definition pick (r : nat) : ascii :=
  match String.get (r mod String.length alphabet) alphabet with
  | Some c => c
  | None => "a"%char
  end.

Fixpoint code_from (e : nat -> nat) (pos n : nat) : string :=
  match n with
  | O => ""
  | S n' => String (pick (e pos)) (code_from e (S pos) n')
  end.

Definition draw_entropy (n : nat) (w : World) : World :=
  mk_world (links w) (clicks w) (uuid_next w) (entropy w)
           (n + entropy_pos w) (wall_clock w) (clock_pos w) (session_zone w).

Definition attempt_link (target_url : string) (w : World) : Link.t :=
  Link.mk (uuid_next w) (code_from (entropy w) (entropy_pos w) 6)
          target_url (session_zone w (wall_clock w (clock_pos w))).

Definition attempt_world (w : World) : World :=
  mk_world (links w) (clicks w) (N.succ (uuid_next w)) (entropy w)
           (6 + entropy_pos w) (wall_clock w) (S (clock_pos w)) (session_zone w).

(** The candidate row of the [i]-th pass (counting from 0). *)
Definition candidate (target_url : string) (w : World) (i : nat) : Link.t :=
  attempt_link target_url (Nat.iter i attempt_world w).

(** The entry [get_stats] builds for a link, as a function of the tables. *)
Definition stats_of (w : World) (link : Link.t) : LinkStats.t :=
  let total_clicks := List.length (clicks_of (Link.id link) (clicks w)) in
  LinkStats.mk
    (Link.short_code link) (Link.target_url link) total_clicks
    (round (float_mul (float_of_int (Z.of_nat total_clicks))
                      EARNINGS_PER_CLICK) 2)
    (group_by_month (clicks_of (Link.id link) (clicks w))).

(** Rows in descending order of [created_at]. *)
Definition newest_first (a b : Link.t) : Prop :=
  datetime_ge (Link.created_at a) (Link.created_at b).

(** The pattern [YYYY-MM]: four digits, a dash, two digits. *)
Definition is_digit (c : ascii) : bool :=
  let n := nat_of_ascii c in ((48 <=? n) && (n <=? 57))%nat.

Definition matches_YYYY_MM (s : string) : bool :=
  match s with
  | String y1 (String y2 (String y3 (String y4
      (String dash (String m1 (String m2 EmptyString)))))) =>
      is_digit y1 && is_digit y2 && is_digit y3 && is_digit y4
      && Ascii.eqb dash "-" && is_digit m1 && is_digit m2
  | _ => false
  end.

Definition string_lt (a b : string) : Prop := String.compare a b = Lt.




(** What [create_link] does for a URL that has no row yet: pass [i] of
    the loop offers [candidate target_url w i] to the unchanged table. *)
Definition bounded_retry_outcome (target_url : string) (w : World) : Prop :=
  ((exists j,
      j < 10 /\
      (forall i, i < j ->
         violates_unique (candidate target_url w i) (links w) = true) /\
      violates_unique (candidate target_url w j) (links w) = false /\
      create_link target_url w
      = (Ok (candidate target_url w j, true),
         set_links (links w ++ [candidate target_url w j])
                   (Nat.iter (S j) attempt_world w)))
   \/
   ((forall i, i < 10 ->
       violates_unique (candidate target_url w i) (links w) = true) /\
    create_link target_url w
    = (Raise (RuntimeError
                "Failed to generate unique short code after multiple attempts"),
       Nat.iter 10 attempt_world w)))
  /\
  (forall i,
     links (Nat.iter i attempt_world w) = links w /\
     clicks (Nat.iter i attempt_world w) = clicks w /\
     Link.short_code (candidate target_url w i)
     = code_from (entropy w) (6 * i + entropy_pos w) 6)
  /\
  (uuid_next (snd (create_link target_url w)) <= uuid_next w + 10)%N
  /\
  entropy_pos (snd (create_link target_url w)) <= entropy_pos w + 60.

(** A store holding the code [aaaaaa] and a random source that keeps
    drawing index 0. *)
Definition noon : datetime := mk_datetime 2024 5 17 12 0 0 0.

Definition stuck_world : World :=
  mk_world [Link.mk 0%N "aaaaaa" "https://fiverr.com/a/svc1" noon] []
           1%N (fun _ => 0) 0 (fun _ => noon) 0 utc.

(** An empty store, and the same store after one [create_link]. *)
Definition empty_world : World :=
  fresh_world (fun n => 7 * n) (fun _ => noon) utc.

Definition first_link : Link.t :=
  Link.mk 0%N "ahov29" "https://fiverr.com/jane/web-design" noon.

Definition one_link_world : World :=
  mk_world [first_link] [] 1%N (fun n => 7 * n) 6 (fun _ => noon) 1 utc.

(** The values [get_stats] works with after its two clamps. *)
Definition clamp_page (page : Z) : Z := if (page <? 1)%Z then 1%Z else page.
Definition clamp_limit (limit : Z) : Z := if (limit >? 100)%Z then 100%Z else limit.

(** The rows of one page: ordered by [created_at] descending, [offset]
    rows skipped, at most [limit] rows taken. *)
Definition page_window (page limit : Z) (rows : list Link.t) : list Link.t :=
  firstn (Z.to_nat limit)
         (skipn (Z.to_nat ((page - 1) * limit))
                (order_by_created_at_desc rows)).

(** What [record_click] reads from its surroundings. *)
Definition next_click (link_id : UUID) (w : World) : Click.t :=
  Click.mk (uuid_next w) link_id (session_zone w (wall_clock w (clock_pos w))).

Definition tick_world (w : World) : World :=
  mk_world (links w) (clicks w) (N.succ (uuid_next w)) (entropy w)
           (entropy_pos w) (wall_clock w) (S (clock_pos w)) (session_zone w).

(** Five links created one month apart, for the pagination example. *)
Definition five_links_world : World :=
  after_all
    [CreateLink "https://fiverr.com/p0/svc"; CreateLink "https://fiverr.com/p1/svc";
     CreateLink "https://fiverr.com/p2/svc"; CreateLink "https://fiverr.com/p3/svc";
     CreateLink "https://fiverr.com/p4/svc"]
    (fresh_world (fun n => 5 * n + 1)
                 (fun n => mk_datetime 2024 (1 + Z.of_nat n) 1 9 30 0 0) utc).



Definition four_digits (s : string) : bool :=
  match s with
  | String a (String b (String c (String d EmptyString))) =>
      is_digit a && is_digit b && is_digit c && is_digit d
  | _ => false
  end.

Definition two_digits (s : string) : bool :=
  match s with
  | String a (String b EmptyString) => is_digit a && is_digit b
  | _ => false
  end.

(** The double [0.5]. *)
Definition one_half : float := S754_finite false 4503599627370496 (-53).

(** Structural equality of two floats. *)
Definition float_same (x y : float) : bool :=
  match x, y with
  | S754_zero s1, S754_zero s2 => Bool.eqb s1 s2
  | S754_infinity s1, S754_infinity s2 => Bool.eqb s1 s2
  | S754_nan, S754_nan => true
  | S754_finite s1 m1 e1, S754_finite s2 m2 e2 =>
      Bool.eqb s1 s2 && Pos.eqb m1 m2 && Z.eqb e1 e2
  | _, _ => false
  end.

(* ------------------------------------------------------------------ *)
(** ** [app/schemas.py] and the handlers of [app/main.py]

    Characters are code points below 256. *)

(** [str.isspace] on one character. *)
Definition isspace (c : ascii) : bool :=
  let n := nat_of_ascii c in
  (((9 <=? n) && (n <=? 13)) || ((28 <=? n) && (n <=? 32))
   || (n =? 133) || (n =? 160))%nat.

(** [s.lstrip()] / [s.lstrip(chars)]: drop leading characters of the set. *)
Fixpoint lstrip (drop : ascii -> bool) (s : string) : string :=
  match s with
  | EmptyString => EmptyString
  | String c s' => if drop c then lstrip drop s' else s
  end.

(** [s.rstrip()] / [s.rstrip(chars)]: drop trailing characters of the set. *)
Fixpoint rstrip (drop : ascii -> bool) (s : string) : string :=
  match s with
  | EmptyString => EmptyString
  | String c s' =>
      match rstrip drop s' with
      | EmptyString => if drop c then EmptyString else String c EmptyString
      | r => String c r
      end
  end.

(** [s.strip()] *)
Definition strip (s : string) : string := rstrip isspace (lstrip isspace s).

(** [s.startswith(p)] *)
Fixpoint startswith (p s : string) : bool :=
  match p, s with
  | EmptyString, _ => true
  | String a p', String b s' => Ascii.eqb a b && startswith p' s'
  | String _ _, EmptyString => false
  end.

(** The outcome of a pydantic field validator. *)
Inductive validated : Type :=
| Valid (v : string)
| ValueError (msg : string).

(** [LinkCreate.validate_url] *)
Definition validate_url (v : string) : validated :=
  if (v =? "")%string || (strip v =? "")%string
  then ValueError "target_url cannot be empty"
  else if negb (startswith "http://" v || startswith "https://" v)
  then ValueError "target_url must start with http:// or https://"
  else Valid (strip v).

Module LinkResponse.
Record t : Type := mk {
    short_code : string;
    short_url : string;
    target_url : string;
    created_at : datetime
}.
End LinkResponse.

(** [post_link]: the body of [POST /links] for a validated body, with the
    request's [base_url]; the reply is the payload and its status code. *)
Definition post_link (body_target_url base_url : string)
  : M (LinkResponse.t * Z) :=
  r <- create_link body_target_url ;;
  let (link, is_new) := r in
  let base_url := rstrip (Ascii.eqb "/") base_url in
  let response :=
    LinkResponse.mk
      (Link.short_code link)
      (base_url ++ "/" ++ Link.short_code link)%string
      (Link.target_url link)
      (Link.created_at link) in
  if is_new then ret (response, 201%Z) else ret (response, 200%Z).

(** The declared constraints of the [/stats] query parameters:
    [page: Query(default=1, ge=1)], [limit: Query(default=20, ge=1, le=100)]. *)
Definition page_query_ok (page : Z) : bool := (1 <=? page)%Z.
Definition limit_query_ok (limit : Z) : bool :=
  ((1 <=? limit) && (limit <=? 100))%Z.

(** What [GET /stats] answers: the payload, or 422 from the parameter
    validation that runs before the handler. *)
Inductive stats_reply : Type :=
| StatsOk (body : Stats.t)
| Unprocessable.

(** [get_global_stats] behind its parameter validation. *)
Definition get_global_stats (page limit : option Z) : M stats_reply :=
  let page := arg 1%Z page in
  let limit := arg 20%Z limit in
  if page_query_ok page && limit_query_ok limit
  then stats <- get_stats (Some page) (Some limit) ;; ret (StatsOk stats)
  else ret Unprocessable.

(** The [to_char] the test configuration registers for SQLite:
    [lambda dt, fmt: dt[:7] if dt else None]. *)
Definition sqlite_to_char (dt : option string) (fmt : string) : option string :=
  match dt with
  | None => None
  | Some EmptyString => None
  | Some s => Some (substring 0 7 s)
  end.

(** Append-only growth of a table. *)
Definition extends {A} (old new : list A) : Prop :=
  exists added, new = old ++ added.

(** The entries [get_stats] lists on one page (none when it raises), and
    the entries of pages [1 .. n] one after the other. *)
Definition stats_links (page limit : Z) (w : World) : list LinkStats.t :=
  match fst (get_stats (Some page) (Some limit) w) with
  | Ok stats => Stats.links stats
  | Raise _ => []
  end.

Fixpoint all_pages (n : nat) (limit : Z) (w : World) : list LinkStats.t :=
  match n with
  | O => []
  | S n' => all_pages n' limit w ++ stats_links (Z.of_nat n) limit w
  end.

(** Every click refers to a stored link. *)
Definition clicks_reference_links (w : World) : Prop :=
  forall c, In c (clicks w) ->
    exists l, In l (links w) /\ Link.id l = Click.link_id c.

(** A month earlier in the calendar. *)
Definition month_before (a b : datetime) : Prop :=
  (year a < year b \/ (year a = year b /\ month a < month b))%Z.

(** A store with two links, after creating a second one. *)
Definition two_links_world : World :=
  snd (create_link "https://fiverr.com/jane/logo" one_link_world).

Definition has_scheme (v : string) : bool :=
  startswith "http://" v || startswith "https://" v.





(** A URL already has a row in the table. *)
Definition url_stored (target_url : string) (w : World) : Prop :=
  exists l, In l (links w) /\ Link.target_url l = target_url.

(** The sum of the [total_clicks] fields of a listing. *)
Definition sum_total_clicks (entries : list LinkStats.t) : nat :=
  fold_right (fun s acc => LinkStats.total_clicks s + acc) 0 entries.

(** Stored link ids are pairwise distinct and were all handed out by the
    allocator. *)
Definition link_ids_ok (w : World) : Prop :=
  NoDup (map Link.id (links w)) /\
  forall l, In l (links w) -> (Link.id l < uuid_next w)%N.

Definition string_ltb (a b : string) : bool :=
  match String.compare a b with Lt => true | _ => false end.

(** Clicks of [cs] counted link by link over the rows [ls]. *)
Definition clicks_per_link (cs : list Click.t) (ls : list Link.t) : nat :=
  fold_right (fun l acc => List.length (clicks_of (Link.id l) cs) + acc) 0 ls.



(** [f z < f (z + 1)] in string order for [n] consecutive [z] from a start. *)
Fixpoint steps_increase (f : Z -> string) (n : nat) (z : Z) : bool :=
  match n with
  | O => true
  | S k => string_ltb (f z) (f (z + 1)%Z) && steps_increase f k (z + 1)%Z
  end.

Definition all_chars (p : ascii -> bool) (s : string) : bool :=
  forallb p (list_ascii_of_string s).

(* ------------------------------------------------------------------ *)
(** ** Words of the specification, stated without the queries *)

(** The instant [a] lies strictly before [b], field by field. *)
Definition earlier (a b : datetime) : Prop :=
  (year a < year b \/ (year a = year b /\
  (month a < month b \/ (month a = month b /\
  (day a < day b \/ (day a = day b /\
  (hour a < hour b \/ (hour a = hour b /\
  (minute a < minute b \/ (minute a = minute b /\
  (second a < second b \/ (second a = second b /\
   microsecond a < microsecond b))))))))))))%Z.

(** Descending [created_at]: a row is never followed by a later one. *)
Definition not_older (a b : Link.t) : Prop :=
  ~ earlier (Link.created_at a) (Link.created_at b).

(** How many rows satisfy a condition. *)
Fixpoint count_where (p : Click.t -> bool) (rows : list Click.t) : nat :=
  match rows with
  | [] => 0
  | c :: rest => (if p c then 1 else 0) + count_where p rest
  end.

(** The text holds no NUL character (the database driver refuses a
    parameter that holds one). *)
Definition no_NUL (s : string) : Prop :=
  ~ In Ascii.zero (list_ascii_of_string s).

(** Every character passes through [quote] unchanged. *)
Definition quote_keeps (safe s : string) : bool :=
  all_chars (kept_by_quote safe) s.






(** A store whose link has a space in its URL. *)
Definition spaced_link : Link.t :=
  Link.mk 0%N "ahov29" "https://fiverr.com/a b" noon.

Definition spaced_world : World :=
  mk_world [spaced_link] [] 1%N (fun n => 7 * n) 6 (fun _ => noon) 1 utc.

(** Two links; the first was clicked three times (in two months), the
    second twice. *)
Definition second_link : Link.t :=
  Link.mk 1%N "gnu18f" "https://fiverr.com/jane/logo" noon.

Definition two_links_clicked_world : World :=
  mk_world [first_link; second_link]
           [Click.mk 2%N 0%N (mk_datetime 2024 5 17 12 0 0 0);
            Click.mk 3%N 1%N (mk_datetime 2024 5 17 12 30 0 0);
            Click.mk 4%N 0%N (mk_datetime 2023 12 31 23 59 59 999999);
            Click.mk 5%N 1%N (mk_datetime 2024 6 1 0 0 0 0);
            Click.mk 6%N 0%N (mk_datetime 2024 5 18 8 15 0 0)]
           7%N (fun n => 7 * n) 12 (fun _ => noon) 7 utc.

(** Two links; only the second has been clicked, twice. *)
Definition second_clicked_world : World :=
  mk_world [first_link; second_link]
           [Click.mk 2%N 1%N (mk_datetime 2024 5 17 12 30 0 0);
            Click.mk 3%N 1%N (mk_datetime 2024 6 1 0 0 0 0)]
           4%N (fun n => 7 * n) 12 (fun _ => noon) 4 utc.

(** A store holding [aaaaaa] whose random source draws index 0 six times
    and other indices afterwards: the first pass collides, the second
    does not. *)
Definition retry_world : World :=
  mk_world [Link.mk 0%N "aaaaaa" "https://fiverr.com/a/svc1" noon] []
           1%N (fun n => if (n <? 6)%nat then 0 else n) 0 (fun _ => noon) 0 utc.

(* ================================================================== *)
(** * The code generator *)
(* ================================================================== *)

Lemma pick_in_alphabet (r : nat) : in_alphabet (pick r) = true.
Proof.
  unfold pick.
  assert (H : r mod String.length alphabet < 36)
    by (apply Nat.mod_upper_bound; discriminate).
  revert H. generalize (r mod String.length alphabet) as k. intros k H.
  do 36 (destruct k as [|k]; [reflexivity|]). lia.
Qed.

Lemma random_choice_alphabet (w : World) :
  random_choice alphabet w = (Ok (pick (entropy w (entropy_pos w))), draw_entropy 1 w).
Proof.
  unfold random_choice, pick.
  assert (H : entropy w (entropy_pos w) mod String.length alphabet < 36)
    by (apply Nat.mod_upper_bound; discriminate).
  revert H.
  generalize (entropy w (entropy_pos w) mod String.length alphabet) as k.
  intros k H.
  do 36 (destruct k as [|k]; [reflexivity|]). lia.
Qed.

Lemma draw_entropy_succ (n : nat) (w : World) :
  draw_entropy n (draw_entropy 1 w) = draw_entropy (S n) w.
Proof.
  unfold draw_entropy. cbn [links clicks uuid_next entropy entropy_pos wall_clock clock_pos session_zone].
  f_equal. lia.
Qed.

Lemma join_choices_alphabet (n : nat) (w : World) :
  join_choices n alphabet w
  = (Ok (code_from (entropy w) (entropy_pos w) n), draw_entropy n w).
Proof.
  revert w. induction n as [|n IH]; intros w.
  - destruct w; reflexivity.
  - cbn [join_choices]. unfold bind at 1.
    rewrite random_choice_alphabet. unfold bind at 1.
    rewrite IH. unfold ret. rewrite draw_entropy_succ.
    cbn [code_from]. reflexivity.
Qed.

Lemma generate_short_code_default (w : World) :
  generate_short_code None w
  = (Ok (code_from (entropy w) (entropy_pos w) 6), draw_entropy 6 w).
Proof. apply (join_choices_alphabet 6 w). Qed.

Lemma code_from_length (e : nat -> nat) (pos n : nat) :
  String.length (code_from e pos n) = n.
Proof.
  revert pos. induction n as [|n IH]; intros pos; cbn; [|rewrite IH]; reflexivity.
Qed.

Lemma code_from_alphabet (e : nat -> nat) (pos n : nat) :
  forallb in_alphabet (list_ascii_of_string (code_from e pos n)) = true.
Proof.
  revert pos. induction n as [|n IH]; intros pos; [reflexivity|].
  cbn [code_from list_ascii_of_string forallb].
  rewrite pick_in_alphabet, IH. reflexivity.
Qed.

Lemma code_from_well_formed (e : nat -> nat) (pos : nat) :
  well_formed_code (code_from e pos 6) = true.
Proof.
  unfold well_formed_code.
  rewrite code_from_length, code_from_alphabet. reflexivity.
Qed.

(* ================================================================== *)
(** * The link store: [create_link] *)
(* ================================================================== *)

Lemma create_link_attempts_step (n : nat) (url : string) (w : World) :
  create_link_attempts (S n) url w
  = if violates_unique (attempt_link url w) (links w)
    then create_link_attempts n url (attempt_world w)
    else (Ok (attempt_link url w, true),
          set_links (links w ++ [attempt_link url w]) (attempt_world w)).
Proof.
  cbn [create_link_attempts]. unfold bind at 1.
  rewrite generate_short_code_default.
  unfold new_Link, uuid4, datetime_now_utc, stored_timestamp, try_except_IntegrityError,
    db_add_commit_link, db_rollback, bind, ret.
  cbn [draw_entropy links clicks uuid_next entropy entropy_pos wall_clock clock_pos
       session_zone].
  fold (attempt_link url w). fold (attempt_world w).
  destruct (violates_unique (attempt_link url w) (links w)); reflexivity.
Qed.

Lemma iter_attempt_world_tables (i : nat) (w : World) :
  links (Nat.iter i attempt_world w) = links w /\
  clicks (Nat.iter i attempt_world w) = clicks w.
Proof.
  induction i as [|i [IHl IHc]]; [split; reflexivity|].
  change (Nat.iter (S i) attempt_world w)
    with (attempt_world (Nat.iter i attempt_world w)).
  split; [rewrite <- IHl | rewrite <- IHc]; reflexivity.
Qed.

Lemma iter_attempt_world_shift (i : nat) (w : World) :
  Nat.iter i attempt_world (attempt_world w) = Nat.iter (S i) attempt_world w.
Proof.
  induction i as [|i IH]; [reflexivity|].
  change (attempt_world (Nat.iter i attempt_world (attempt_world w))
          = attempt_world (Nat.iter (S i) attempt_world w)).
  rewrite IH. reflexivity.
Qed.

(** The loop returns the first candidate the table accepts. *)
Lemma create_link_attempts_first (n : nat) (url : string) (w : World) (j : nat) :
  j < n ->
  (forall i, i < j -> violates_unique (candidate url w i) (links w) = true) ->
  violates_unique (candidate url w j) (links w) = false ->
  create_link_attempts n url w
  = (Ok (candidate url w j, true),
     set_links (links w ++ [candidate url w j]) (Nat.iter (S j) attempt_world w)).
Proof.
  revert w j. induction n as [|n IH]; intros w j Hj Hbefore Hfree; [lia|].
  rewrite create_link_attempts_step.
  destruct j as [|j].
  - unfold candidate in Hfree. cbn [Nat.iter nat_rect] in Hfree.
    rewrite Hfree. reflexivity.
  - assert (H0 : violates_unique (attempt_link url w) (links w) = true)
      by (apply (Hbefore 0); lia).
    rewrite H0.
    assert (Hl : links (attempt_world w) = links w) by reflexivity.
    rewrite (IH (attempt_world w) j).
    + unfold candidate. rewrite !iter_attempt_world_shift, Hl. reflexivity.
    + lia.
    + intros i Hi. unfold candidate. rewrite iter_attempt_world_shift, Hl.
      apply (Hbefore (S i)). lia.
    + unfold candidate. rewrite iter_attempt_world_shift, Hl. exact Hfree.
Qed.

(** When every candidate is refused the loop ends in [RuntimeError]. *)
Lemma create_link_attempts_exhausted (n : nat) (url : string) (w : World) :
  (forall i, i < n -> violates_unique (candidate url w i) (links w) = true) ->
  create_link_attempts n url w
  = (Raise (RuntimeError
              "Failed to generate unique short code after multiple attempts"),
     Nat.iter n attempt_world w).
Proof.
  revert w. induction n as [|n IH]; intros w Hall; [reflexivity|].
  rewrite create_link_attempts_step.
  assert (H0 : violates_unique (attempt_link url w) (links w) = true)
    by (apply (Hall 0); lia).
  rewrite H0, IH.
  - rewrite iter_attempt_world_shift. reflexivity.
  - intros i Hi. unfold candidate. rewrite iter_attempt_world_shift.
    apply (Hall (S i)). lia.
Qed.

(** A pass either appends one accepted row or leaves both tables alone. *)
Lemma create_link_attempts_ok (n : nat) (url : string) (w w1 : World)
      (l : Link.t) (is_new : bool) :
  create_link_attempts n url w = (Ok (l, is_new), w1) ->
  is_new = true /\
  links w1 = links w ++ [l] /\
  clicks w1 = clicks w /\
  Link.target_url l = url /\
  well_formed_code (Link.short_code l) = true /\
  violates_unique l (links w) = false.
Proof.
  revert w. induction n as [|n IH]; intros w H; [discriminate|].
  rewrite create_link_attempts_step in H.
  destruct (violates_unique (attempt_link url w) (links w)) eqn:Hv.
  - apply IH in H. exact H.
  - inversion H; subst. repeat split; try reflexivity.
    + apply code_from_well_formed.
    + exact Hv.
Qed.

Lemma create_link_attempts_tables (n : nat) (url : string) (w : World) :
  clicks (snd (create_link_attempts n url w)) = clicks w /\
  (links (snd (create_link_attempts n url w)) = links w \/
   exists l, links (snd (create_link_attempts n url w)) = links w ++ [l] /\
             well_formed_code (Link.short_code l) = true /\
             violates_unique l (links w) = false).
Proof.
  revert w. induction n as [|n IH]; intros w.
  - split; [reflexivity | left; reflexivity].
  - rewrite create_link_attempts_step.
    destruct (violates_unique (attempt_link url w) (links w)) eqn:Hv.
    + apply (IH (attempt_world w)).
    + split; [reflexivity|]. right. exists (attempt_link url w).
      repeat split; [apply code_from_well_formed | exact Hv].
Qed.

Lemma find_app_new {A} (p : A -> bool) (xs : list A) (x : A) :
  find p xs = None -> p x = true -> find p (xs ++ [x]) = Some x.
Proof.
  induction xs as [|y ys IH]; cbn; intros Hn Hp.
  - rewrite Hp. reflexivity.
  - destruct (p y); [discriminate | auto].
Qed.

(** ** C1 *)

(** C1. Idempotent creation: whenever [create_link] returns a link for a
    URL, an immediately following call with the same URL returns that
    very record (hence the same short code) with [is_new = false], and
    leaves the world, in particular the [links] table, exactly as it
    was; the returned record is a stored row. *)
Theorem create_link_idempotent (target_url : string) (w w1 : World)
        (l : Link.t) (is_new : bool) :
  create_link target_url w = (Ok (l, is_new), w1) ->
  create_link target_url w1 = (Ok (l, false), w1) /\
  In l (links w1).
Proof.
  unfold create_link, bind, query_link_first, ret.
  destruct (find (fun l0 => (Link.target_url l0 =? target_url)%string) (links w))
    as [existing|] eqn:Hfind.
  - intros H. inversion H; subst. rewrite Hfind. split; [reflexivity|].
    apply find_some in Hfind. tauto.
  - intros H. apply create_link_attempts_ok in H.
    destruct H as (_ & Hl & _ & Hu & _ & _).
    rewrite Hl, (find_app_new _ _ l Hfind).
    + split; [reflexivity|]. apply in_or_app. right. left. reflexivity.
    + rewrite Hu. apply String.eqb_refl.
Qed.

(** ** C3 *)

Lemma first_accepted_or_none (n : nat) (url : string) (w : World) :
  (exists j, j < n /\
     (forall i, i < j -> violates_unique (candidate url w i) (links w) = true) /\
     violates_unique (candidate url w j) (links w) = false)
  \/ (forall i, i < n -> violates_unique (candidate url w i) (links w) = true).
Proof.
  induction n as [|n [(j & Hj & Hb & Hf) | Hall]].
  - right. intros i Hi. lia.
  - left. exists j. repeat split; [lia | exact Hb | exact Hf].
  - destruct (violates_unique (candidate url w n) (links w)) eqn:Hn.
    + right. intros i Hi.
      destruct (Nat.eq_dec i n) as [->|Hne]; [exact Hn | apply Hall; lia].
    + left. exists n. repeat split; [lia | exact Hall | exact Hn].
Qed.

Lemma candidate_code (url : string) (w : World) (i : nat) :
  Link.short_code (candidate url w i)
  = code_from (entropy w) (6 * i + entropy_pos w) 6.
Proof.
  unfold candidate, attempt_link. cbn [Link.short_code].
  assert (H : entropy (Nat.iter i attempt_world w) = entropy w /\
              entropy_pos (Nat.iter i attempt_world w) = 6 * i + entropy_pos w).
  { induction i as [|i [IHe IHp]]; [split; reflexivity|].
    change (Nat.iter (S i) attempt_world w)
      with (attempt_world (Nat.iter i attempt_world w)).
    unfold attempt_world at 1 3. cbn [entropy entropy_pos].
    split; [exact IHe | rewrite IHp; lia]. }
  destruct H as [-> ->]. reflexivity.
Qed.

Lemma iter_attempt_world_counters (i : nat) (w : World) :
  uuid_next (Nat.iter i attempt_world w) = (uuid_next w + N.of_nat i)%N /\
  entropy_pos (Nat.iter i attempt_world w) = 6 * i + entropy_pos w.
Proof.
  induction i as [|i [IHu IHe]].
  { change (Nat.iter 0 attempt_world w) with w. split; [lia | reflexivity]. }
  change (Nat.iter (S i) attempt_world w)
    with (attempt_world (Nat.iter i attempt_world w)).
  unfold attempt_world at 1 3. cbn [uuid_next entropy_pos].
  rewrite IHu, IHe. split; lia.
Qed.

(** C3. Bounded retry with surfaced failure: when no link exists for a
    target URL (one without a NUL character), [create_link] makes at most
    10 passes.  Pass [i] builds its row from six fresh random draws and
    offers it to the tables, which every refused pass has left unchanged.
    Either some pass [j < 10] is the first to be accepted, and the call
    returns that row with [is_new = true] after exactly [j + 1] passes;
    or all 10 are refused, and the call raises [RuntimeError] with both
    tables as they were.  In either case at most 10 identifiers and 60
    random draws were used. *)
Theorem create_link_bounded_retry (target_url : string) (w : World) :
  no_NUL target_url ->
  find (fun l => (Link.target_url l =? target_url)%string) (links w) = None ->
  bounded_retry_outcome target_url w.
Proof.
  intros _ Hfind.
  assert (Hloop : create_link target_url w
                  = create_link_attempts max_attempts target_url w)
    by (unfold create_link, bind, query_link_first; rewrite Hfind; reflexivity).
  assert (Htables : forall i,
     links (Nat.iter i attempt_world w) = links w /\
     clicks (Nat.iter i attempt_world w) = clicks w /\
     Link.short_code (candidate target_url w i)
     = code_from (entropy w) (6 * i + entropy_pos w) 6).
  { intros i. destruct (iter_attempt_world_tables i w) as [Hl Hc].
    repeat split; [exact Hl | exact Hc | apply candidate_code]. }
  destruct (first_accepted_or_none 10 target_url w)
    as [(j & Hj & Hb & Hf) | Hall].
  - assert (Heq : create_link target_url w
                  = (Ok (candidate target_url w j, true),
                     set_links (links w ++ [candidate target_url w j])
                               (Nat.iter (S j) attempt_world w)))
      by (rewrite Hloop; apply create_link_attempts_first; assumption).
    destruct (iter_attempt_world_counters (S j) w) as [Hu He].
    split; [left; exists j; repeat split; assumption|].
    split; [exact Htables|].
    rewrite Heq. cbn [snd set_links uuid_next entropy_pos].
    rewrite Hu, He. split; lia.
  - assert (Heq : create_link target_url w
                  = (Raise (RuntimeError
                       "Failed to generate unique short code after multiple attempts"),
                     Nat.iter 10 attempt_world w))
      by (rewrite Hloop; apply create_link_attempts_exhausted; exact Hall).
    destruct (iter_attempt_world_counters 10 w) as [Hu He].
    split; [right; split; assumption|].
    split; [exact Htables|].
    rewrite Heq. cbn [snd]. rewrite Hu, He. split; lia.
Qed.

Lemma create_link_bounded_retry_witness :
  no_NUL "https://fiverr.com/b/svc2" /\
  find (fun l => (Link.target_url l =? "https://fiverr.com/b/svc2")%string)
       (links stuck_world) = None /\
  create_link "https://fiverr.com/b/svc2" stuck_world
  = (Raise (RuntimeError
              "Failed to generate unique short code after multiple attempts"),
     Nat.iter 10 attempt_world stuck_world) /\
  links (Nat.iter 10 attempt_world stuck_world) = links stuck_world /\
  uuid_next (Nat.iter 10 attempt_world stuck_world) = 11%N /\
  fst (create_link "https://fiverr.com/b/svc2" retry_world)
  = Ok (candidate "https://fiverr.com/b/svc2" retry_world 1, true) /\
  Link.short_code (candidate "https://fiverr.com/b/svc2" retry_world 1)
  = "ghijkl".
Proof.
  assert (Hnul : no_NUL "https://fiverr.com/b/svc2").
  { unfold no_NUL. cbn [list_ascii_of_string In]. intros H.
    repeat (destruct H as [H | H]; [discriminate H|]). exact H. }
  split; [exact Hnul|]. split; [reflexivity|].
  split; [|split; [reflexivity|split; [reflexivity|split; [|reflexivity]]]].
  - destruct (create_link_bounded_retry _ stuck_world Hnul eq_refl)
      as ([(j & Hj & _ & Hf & _) | [_ Heq]] & _).
    + exfalso.
      do 10 (destruct j as [|j]; [vm_compute in Hf; discriminate Hf|]). lia.
    + exact Heq.
  - destruct (create_link_bounded_retry _ retry_world Hnul eq_refl)
      as ([(j & Hj & Hb & Hf & Heq) | [Hall _]] & _).
    + destruct j as [|[|j]].
      * exfalso. vm_compute in Hf. discriminate Hf.
      * rewrite Heq. reflexivity.
      * exfalso. assert (H1 : 1 < S (S j)) by lia.
        specialize (Hb 1 H1). vm_compute in Hb. discriminate Hb.
    + exfalso. assert (H1 : 1 < 10) by lia.
      specialize (Hall 1 H1). vm_compute in Hall. discriminate Hall.
Defined.

Example create_link_exhausted_example :
  fst (create_link "https://fiverr.com/b/svc2" stuck_world)
  = Raise (RuntimeError
             "Failed to generate unique short code after multiple attempts")
  /\ links (snd (create_link "https://fiverr.com/b/svc2" stuck_world))
     = links stuck_world
  /\ uuid_next (snd (create_link "https://fiverr.com/b/svc2" stuck_world))
     = 11%N.
Proof. vm_compute. repeat split. Qed.

Lemma create_link_idempotent_witness :
  create_link "https://fiverr.com/jane/web-design" empty_world
  = (Ok (first_link, true), one_link_world) /\
  create_link "https://fiverr.com/jane/web-design" one_link_world
  = (Ok (first_link, false), one_link_world) /\
  In first_link (links one_link_world).
Proof.
  split; [reflexivity|].
  apply (create_link_idempotent _ empty_world one_link_world first_link true).
  reflexivity.
Defined.

(* ================================================================== *)
(** * Frames: what each service call leaves alone *)
(* ================================================================== *)

Lemma record_click_step (link_id : UUID) (w : World) :
  record_click link_id w
  = if references_link (next_click link_id w) (links w)
    then (Ok (next_click link_id w),
          set_clicks (clicks w ++ [next_click link_id w]) (tick_world w))
    else (Raise IntegrityError, tick_world w).
Proof.
  unfold record_click, new_Click, uuid4, datetime_now_utc, stored_timestamp,
    db_add_commit_click, bind, ret.
  cbn [links clicks uuid_next entropy entropy_pos wall_clock clock_pos session_zone].
  fold (next_click link_id w). fold (tick_world w).
  change (links (tick_world w)) with (links w).
  destruct (references_link (next_click link_id w) (links w)); reflexivity.
Qed.

Lemma record_click_links (link_id : UUID) (w : World) :
  links (snd (record_click link_id w)) = links w.
Proof.
  rewrite record_click_step.
  destruct (references_link (next_click link_id w) (links w)); reflexivity.
Qed.

Lemma for_each_link_pure (ls : list Link.t) (w : World) :
  for_each_link ls w = (Ok (map (stats_of w) ls), w).
Proof.
  induction ls as [|l ls IH]; [reflexivity|].
  cbn [for_each_link map].
  unfold link_stats, query_click_count, query_monthly_data, bind, ret.
  rewrite IH. reflexivity.
Qed.

Lemma get_stats_unfold (page limit : option Z) (w : World) :
  get_stats page limit w
  = let p := clamp_page (arg 1%Z page) in
    let l := clamp_limit (arg 20%Z limit) in
    if window_refused ((p - 1) * l) l then (Raise DataError, w)
    else (Ok (Stats.mk p l (List.length (links w))
                       (map (stats_of w) (page_window p l (links w)))), w).
Proof.
  unfold get_stats, query_link_count, query_links_window, bind.
  fold (clamp_page (arg 1%Z page)). fold (clamp_limit (arg 20%Z limit)).
  cbv zeta.
  destruct (window_refused
              ((clamp_page (arg 1%Z page) - 1) * clamp_limit (arg 20%Z limit))
              (clamp_limit (arg 20%Z limit))); [reflexivity|].
  rewrite for_each_link_pure. reflexivity.
Qed.

Lemma get_stats_world (page limit : option Z) (w : World) :
  snd (get_stats page limit w) = w.
Proof.
  rewrite get_stats_unfold. cbv zeta.
  match goal with |- snd (if ?b then _ else _) = _ => destruct b end; reflexivity.
Qed.

Lemma redirect_links (code : string) (w : World) :
  links (snd (redirect_short_link code w)) = links w.
Proof.
  unfold redirect_short_link, get_link_by_short_code, query_link_first,
    simulate_fraud_check, bind at 1.
  destruct (find (fun l => (Link.short_code l =? code)%string) (links w)) as [l|];
    [|reflexivity].
  unfold ret at 1, bind at 1. cbn [negb].
  unfold bind. pose proof (record_click_links (Link.id l) w) as H.
  destruct (record_click (Link.id l) w) as [[c|e] w']; exact H.
Qed.

Lemma create_link_links (url : string) (w : World) :
  links (snd (create_link url w)) = links w \/
  exists l, links (snd (create_link url w)) = links w ++ [l] /\
            well_formed_code (Link.short_code l) = true /\
            violates_unique l (links w) = false.
Proof.
  unfold create_link, bind, query_link_first.
  destruct (find _ (links w)); [left; reflexivity|].
  apply create_link_attempts_tables.
Qed.

(* ================================================================== *)
(** * The short-code invariant *)
(* ================================================================== *)

Lemma violates_unique_false_code (l : Link.t) (rows : list Link.t) :
  violates_unique l rows = false ->
  ~ In (Link.short_code l) (map Link.short_code rows).
Proof.
  unfold violates_unique. induction rows as [|r rows IH]; cbn; [tauto|].
  intros H. apply orb_false_elim in H. destruct H as [Hr Hrest].
  apply orb_false_elim in Hr. destruct Hr as [Hc _].
  intros [Heq | Hin].
  - rewrite Heq, String.eqb_refl in Hc. discriminate.
  - exact (IH Hrest Hin).
Qed.

Lemma codes_ok_snoc (rows : list Link.t) (l : Link.t) :
  codes_ok rows ->
  well_formed_code (Link.short_code l) = true ->
  violates_unique l rows = false ->
  codes_ok (rows ++ [l]).
Proof.
  intros [Hwf Hnd] Hl Hv. split.
  - apply Forall_app. split; [exact Hwf | constructor; [exact Hl | constructor]].
  - rewrite map_app. cbn [map].
    apply (Permutation_NoDup (Permutation_cons_append _ _)).
    constructor; [apply violates_unique_false_code; exact Hv | exact Hnd].
Qed.

Lemma codes_ok_after (c : call) (w : World) :
  codes_ok (links w) -> codes_ok (links (after c w)).
Proof.
  intros H. destruct c as [u | i | p l | s]; cbn [after].
  - destruct (create_link_links u w) as [-> | (l & -> & Hwf & Hv)];
      [exact H | apply codes_ok_snoc; assumption].
  - rewrite record_click_links. exact H.
  - rewrite get_stats_world. exact H.
  - rewrite redirect_links. exact H.
Qed.

Lemma codes_ok_after_all (cs : list call) (w : World) :
  codes_ok (links w) -> codes_ok (links (after_all cs w)).
Proof.
  revert w. induction cs as [|c cs IH]; intros w H; [exact H|].
  cbn [after_all fold_left]. apply IH. apply codes_ok_after. exact H.
Qed.

Lemma NoDup_map_injective {A B} (f : A -> B) (xs : list A) (a b : A) :
  NoDup (map f xs) -> In a xs -> In b xs -> f a = f b -> a = b.
Proof.
  induction xs as [|x xs IH]; cbn; [tauto|].
  intros Hnd Ha Hb Hf. inversion Hnd as [|? ? Hnotin Hnd']; subst.
  destruct Ha as [-> | Ha], Hb as [-> | Hb].
  - reflexivity.
  - exfalso. apply Hnotin. rewrite Hf. apply in_map. exact Hb.
  - exfalso. apply Hnotin. rewrite <- Hf. apply in_map. exact Ha.
  - apply IH; assumption.
Qed.

(** ** C2 *)

(** C2. Short-code invariant: starting from empty tables, after any
    sequence of service calls (whatever the random source and the clock
    deliver) every stored link's [short_code] has exactly 6 characters,
    all from [[a-z0-9]], and no two stored links share a [short_code]; in
    particular stored links with distinct target URLs carry distinct
    codes. *)
Theorem short_codes_invariant (e : nat -> nat) (c : nat -> datetime)
        (z : datetime -> datetime) (cs : list call) :
  let w := after_all cs (fresh_world e c z) in
  (forall l, In l (links w) ->
     String.length (Link.short_code l) = 6 /\
     Forall (fun ch => in_alphabet ch = true)
            (list_ascii_of_string (Link.short_code l))) /\
  NoDup (map Link.short_code (links w)) /\
  (forall l1 l2, In l1 (links w) -> In l2 (links w) ->
     Link.target_url l1 <> Link.target_url l2 ->
     Link.short_code l1 <> Link.short_code l2).
Proof.
  intros w.
  assert (H : codes_ok (links w)).
  { apply codes_ok_after_all. split; constructor. }
  destruct H as [Hwf Hnd]. repeat split.
  - rewrite Forall_forall in Hwf. specialize (Hwf l H).
    unfold well_formed_code in Hwf. apply andb_prop in Hwf.
    apply Nat.eqb_eq. tauto.
  - rewrite Forall_forall in Hwf. specialize (Hwf l H).
    unfold well_formed_code in Hwf. apply andb_prop in Hwf.
    apply Forall_forall. apply forallb_forall. tauto.
  - exact Hnd.
  - intros l1 l2 H1 H2 Hurl Hcode. apply Hurl.
    rewrite (NoDup_map_injective Link.short_code (links w) l1 l2 Hnd H1 H2 Hcode).
    reflexivity.
Qed.

(* ================================================================== *)
(** * The stats aggregator: pagination *)
(* ================================================================== *)

Lemma lex_antisym (c1 c2 k1 k2 : comparison) :
  c1 = CompOpp c2 -> k1 = CompOpp k2 -> lex c1 k1 = CompOpp (lex c2 k2).
Proof. intros -> ->. destruct c2; reflexivity. Qed.

Lemma datetime_compare_antisym (a b : datetime) :
  datetime_compare a b = CompOpp (datetime_compare b a).
Proof.
  unfold datetime_compare.
  repeat (apply lex_antisym; [apply Z.compare_antisym|]).
  apply Z.compare_antisym.
Qed.

Lemma insert_desc_perm (l : Link.t) (sorted : list Link.t) :
  Permutation (insert_desc l sorted) (l :: sorted).
Proof.
  induction sorted as [|x rest IH]; cbn [insert_desc]; [reflexivity|].
  destruct (datetime_ltb (Link.created_at l) (Link.created_at x)); [|reflexivity].
  rewrite IH. apply perm_swap.
Qed.

Lemma insert_desc_sorted (l : Link.t) (sorted : list Link.t) :
  Sorted newest_first sorted -> Sorted newest_first (insert_desc l sorted).
Proof.
  induction sorted as [|x rest IH]; intros Hs; cbn [insert_desc].
  - repeat constructor.
  - destruct (datetime_ltb (Link.created_at l) (Link.created_at x)) eqn:Hlt.
    + inversion Hs as [|? ? Hrest Hhd]; subst. constructor; [apply IH; exact Hrest|].
      assert (Hx : newest_first x l).
      { unfold newest_first, datetime_ge, datetime_ltb in *.
        rewrite datetime_compare_antisym.
        destruct (datetime_compare (Link.created_at l) (Link.created_at x));
          discriminate. }
      destruct rest as [|y rest']; cbn [insert_desc].
      * constructor. exact Hx.
      * destruct (datetime_ltb (Link.created_at l) (Link.created_at y)).
        -- inversion Hhd; subst. constructor. assumption.
        -- constructor. exact Hx.
    + constructor; [exact Hs|]. constructor.
      unfold newest_first, datetime_ge, datetime_ltb in *.
      rewrite datetime_compare_antisym in Hlt.
      destruct (datetime_compare (Link.created_at x) (Link.created_at l)) eqn:E;
        cbn in Hlt; try discriminate.
      * rewrite datetime_compare_antisym, E. discriminate.
      * rewrite datetime_compare_antisym, E. discriminate.
Qed.

Lemma order_by_created_at_desc_perm (rows : list Link.t) :
  Permutation (order_by_created_at_desc rows) rows.
Proof.
  induction rows as [|l rows IH]; [reflexivity|].
  cbn [order_by_created_at_desc fold_right].
  rewrite insert_desc_perm. constructor. exact IH.
Qed.

Lemma order_by_created_at_desc_sorted (rows : list Link.t) :
  Sorted newest_first (order_by_created_at_desc rows).
Proof.
  induction rows as [|l rows IH]; [constructor|].
  apply insert_desc_sorted. exact IH.
Qed.

Lemma page_window_length (page limit : Z) (rows : list Link.t) :
  List.length (page_window page limit rows)
  = Nat.min (Z.to_nat limit)
            (List.length rows - Z.to_nat ((page - 1) * limit)).
Proof.
  unfold page_window.
  rewrite length_firstn, length_skipn,
    (Permutation_length (order_by_created_at_desc_perm rows)).
  reflexivity.
Qed.

Lemma page_window_incl (page limit : Z) (rows : list Link.t) (l : Link.t) :
  In l (page_window page limit rows) -> In l rows.
Proof.
  unfold page_window. intros H.
  apply (Permutation_in l (order_by_created_at_desc_perm rows)).
  set (o := order_by_created_at_desc rows) in *.
  set (k := Z.to_nat ((page - 1) * limit)) in *.
  rewrite <- (firstn_skipn k o). apply in_or_app. right.
  rewrite <- (firstn_skipn (Z.to_nat limit) (skipn k o)).
  apply in_or_app. left. exact H.
Qed.

Lemma clamp_page_max (page : Z) : clamp_page page = Z.max 1 page.
Proof. unfold clamp_page. destruct (Z.ltb_spec page 1); lia. Qed.

Lemma clamp_limit_min (limit : Z) : clamp_limit limit = Z.min 100 limit.
Proof.
  unfold clamp_limit. rewrite Z.gtb_ltb. destruct (Z.ltb_spec 100 limit); lia.
Qed.

Lemma window_accepted (offset limit : Z) :
  (0 <= offset <= bigint_max)%Z -> (0 <= limit <= bigint_max)%Z ->
  window_refused offset limit = false.
Proof.
  intros Ho Hl. unfold window_refused.
  rewrite !orb_false_iff. repeat split; apply Z.ltb_ge; lia.
Qed.

(** With a non-negative limit and an offset within [bigint] the query is
    accepted and the call returns. *)
Lemma get_stats_ok (page limit : Z) (w : World) :
  (0 <= limit)%Z ->
  ((Z.max 1 page - 1) * Z.min 100 limit <= bigint_max)%Z ->
  get_stats (Some page) (Some limit) w
  = (Ok (Stats.mk (Z.max 1 page) (Z.min 100 limit) (List.length (links w))
           (map (stats_of w)
                (page_window (Z.max 1 page) (Z.min 100 limit) (links w)))), w).
Proof.
  intros Hl Ho. rewrite get_stats_unfold. cbn [arg]. cbv zeta.
  rewrite clamp_page_max, clamp_limit_min.
  rewrite window_accepted; [reflexivity | | unfold bigint_max; lia].
  split; [nia | exact Ho].
Qed.

(** Whenever [get_stats] returns, its entries are those of a window of
    stored links, and the world is untouched. *)
Lemma get_stats_inv (page limit : option Z) (w w' : World) (stats : Stats.t) :
  get_stats page limit w = (Ok stats, w') ->
  w' = w /\
  Stats.total_links stats = List.length (links w) /\
  exists p l,
    Stats.links stats = map (stats_of w) (page_window p l (links w)).
Proof.
  rewrite get_stats_unfold. cbv zeta.
  match goal with |- (if ?b then _ else _) = _ -> _ => destruct b end;
    [discriminate|].
  intros H. inversion H; subst. repeat split.
  eexists. eexists. reflexivity.
Qed.

Lemma get_stats_entry (page limit : option Z) (w w' : World) (stats : Stats.t)
      (s : LinkStats.t) :
  get_stats page limit w = (Ok stats, w') ->
  In s (Stats.links stats) ->
  exists l, In l (links w) /\ s = stats_of w l.
Proof.
  intros H Hs. apply get_stats_inv in H. destruct H as (_ & _ & p & l & Hl).
  rewrite Hl in Hs. apply in_map_iff in Hs. destruct Hs as (x & Hx & Hin).
  exists x. split; [eapply page_window_incl; exact Hin | symmetry; exact Hx].
Qed.

(** ** C4 *)

Lemma datetime_compare_lt_iff (a b : datetime) :
  datetime_compare a b = Lt <-> earlier a b.
Proof.
  unfold datetime_compare, earlier, lex.
  destruct (Z.compare_spec (year a) (year b));
  destruct (Z.compare_spec (month a) (month b));
  destruct (Z.compare_spec (day a) (day b));
  destruct (Z.compare_spec (hour a) (hour b));
  destruct (Z.compare_spec (minute a) (minute b));
  destruct (Z.compare_spec (second a) (second b));
  destruct (Z.compare_spec (microsecond a) (microsecond b));
  split; intros Hcmp; try discriminate Hcmp; try reflexivity; lia.
Qed.

Lemma newest_first_not_older (a b : Link.t) :
  newest_first a b -> not_older a b.
Proof.
  unfold newest_first, datetime_ge, not_older. intros H He.
  apply H. apply datetime_compare_lt_iff. exact He.
Qed.

Lemma Sorted_weaken {A} (R R' : A -> A -> Prop) (xs : list A) :
  (forall a b, R a b -> R' a b) -> Sorted R xs -> Sorted R' xs.
Proof.
  intros Himp. induction 1 as [|x xs Hs IH Hhd]; constructor.
  - exact IH.
  - destruct Hhd; constructor. apply Himp. assumption.
Qed.

Lemma order_by_created_at_desc_descending (rows : list Link.t) :
  Sorted not_older (order_by_created_at_desc rows).
Proof.
  apply (Sorted_weaken newest_first); [apply newest_first_not_older|].
  apply order_by_created_at_desc_sorted.
Qed.

(** C4. Pagination contract of [get_stats]: for every world, every
    [page >= 1] and every [0 <= limit <= 100] whose offset
    [(page - 1) * limit] PostgreSQL accepts (at most the largest
    [bigint]), the call returns, leaves the world untouched, and its
    entries are those of the window obtained by ordering all links by
    [created_at] descending (a permutation of the table in which no row
    is followed by one created later), skipping [(page - 1) * limit] rows
    and taking at most [limit]; [total_links] is the number of stored
    links whatever the page.  With 5 links and [limit = 2], pages 1 and 2
    hold 2 entries and page 3 holds 1, with [total_links = 5] throughout;
    on a store without links the default call returns
    [{page: 1, limit: 20, total_links: 0, links: []}]. *)
Theorem get_stats_pagination (w : World) (page limit : Z) :
  (1 <= page)%Z -> (0 <= limit <= 100)%Z ->
  ((page - 1) * limit <= bigint_max)%Z ->
  (exists ordered,
     Permutation ordered (links w) /\
     Sorted not_older ordered /\
     get_stats (Some page) (Some limit) w
     = (Ok (Stats.mk page limit (List.length (links w))
              (map (stats_of w)
                 (firstn (Z.to_nat limit)
                    (skipn (Z.to_nat ((page - 1) * limit)) ordered)))), w)) /\
  (List.length (links w) = 5 ->
   forall p, (1 <= p <= 3)%Z ->
     exists stats,
       get_stats (Some p) (Some 2%Z) w = (Ok stats, w) /\
       Stats.total_links stats = 5 /\
       List.length (Stats.links stats) = if (p =? 3)%Z then 1 else 2) /\
  (links w = [] ->
   get_stats None None w = (Ok (Stats.mk 1 20 0 []), w)).
Proof.
  intros Hp Hl Ho. repeat split.
  - exists (order_by_created_at_desc (links w)).
    split; [apply order_by_created_at_desc_perm|].
    split; [apply order_by_created_at_desc_descending|].
    rewrite get_stats_ok;
      [| lia | replace (Z.max 1 page) with page by lia;
               replace (Z.min 100 limit) with limit by lia; exact Ho].
    replace (Z.max 1 page) with page by lia.
    replace (Z.min 100 limit) with limit by lia.
    reflexivity.
  - intros H5 p Hp3. eexists.
    split; [apply get_stats_ok; unfold bigint_max; lia|].
    cbn [Stats.total_links Stats.links]. split; [exact H5|].
    rewrite length_map, page_window_length, H5.
    assert (Hc : p = 1%Z \/ p = 2%Z \/ p = 3%Z) by lia.
    destruct Hc as [-> | [-> | ->]]; reflexivity.
  - intros He. change (get_stats None None w)
      with (get_stats (Some 1%Z) (Some 20%Z) w).
    rewrite get_stats_ok by (unfold bigint_max; lia).
    unfold page_window. rewrite He. reflexivity.
Qed.

Lemma get_stats_pagination_witness :
  (1 <= 3)%Z /\ (0 <= 2 <= 100)%Z /\ ((3 - 1) * 2 <= bigint_max)%Z /\
  (exists stats,
     get_stats (Some 3%Z) (Some 2%Z) five_links_world
     = (Ok stats, five_links_world) /\
     Stats.total_links stats = 5 /\
     List.length (Stats.links stats) = 1) /\
  (exists ordered,
     Sorted not_older ordered /\
     map Link.target_url ordered
     = ["https://fiverr.com/p4/svc"; "https://fiverr.com/p3/svc";
        "https://fiverr.com/p2/svc"; "https://fiverr.com/p1/svc";
        "https://fiverr.com/p0/svc"] /\
     get_stats (Some 3%Z) (Some 2%Z) five_links_world
     = (Ok (Stats.mk 3 2 5
              (map (stats_of five_links_world) (firstn 2 (skipn 4 ordered)))),
        five_links_world)) /\
  map LinkStats.target_url (stats_links 1 2 five_links_world)
  = ["https://fiverr.com/p4/svc"; "https://fiverr.com/p3/svc"] /\
  map LinkStats.target_url (stats_links 3 2 five_links_world)
  = ["https://fiverr.com/p0/svc"].
Proof.
  assert (H1 : (1 <= 3)%Z) by lia.
  assert (H2 : (0 <= 2 <= 100)%Z) by lia.
  assert (H3 : ((3 - 1) * 2 <= bigint_max)%Z) by (vm_compute; discriminate).
  split; [exact H1|]. split; [exact H2|]. split; [exact H3|].
  destruct (get_stats_pagination five_links_world 3 2 H1 H2 H3)
    as ((ordered & Hperm & Hsorted & Heq) & H5 & _).
  split; [apply (H5 eq_refl 3%Z); lia|].
  split; [|split; vm_compute; reflexivity].
  exists (order_by_created_at_desc (links five_links_world)).
  split; [apply order_by_created_at_desc_descending|].
  split; vm_compute; reflexivity.
Defined.

(** ** C9 *)

(** C9. Defensive clamping in [get_stats]: called with any [page] and any
    [limit >= 0] for which PostgreSQL accepts the clamped offset, the call
    works with [page] raised to at least 1 and [limit] lowered to at most
    100: these clamped values are the [page] and [limit] fields of the
    result, and the offset and the window are computed from them.  In
    every case the call behaves as the call with the clamped values, and
    omitted arguments stand for [page = 1] and [limit = 20]. *)
Theorem get_stats_clamps (w : World) (page limit : Z) :
  (0 <= limit)%Z ->
  ((Z.max 1 page - 1) * Z.min 100 limit <= bigint_max)%Z ->
  (exists stats,
     get_stats (Some page) (Some limit) w = (Ok stats, w) /\
     Stats.page stats = Z.max 1 page /\
     Stats.limit stats = Z.min 100 limit /\
     Stats.links stats
     = map (stats_of w)
         (firstn (Z.to_nat (Z.min 100 limit))
            (skipn (Z.to_nat ((Z.max 1 page - 1) * Z.min 100 limit))
               (order_by_created_at_desc (links w)))) /\
     ((page < 1)%Z -> Stats.page stats = 1%Z) /\
     ((limit > 100)%Z -> Stats.limit stats = 100%Z)) /\
  get_stats (Some page) (Some limit) w
  = get_stats (Some (Z.max 1 page)) (Some (Z.min 100 limit)) w /\
  get_stats None None w = get_stats (Some 1%Z) (Some 20%Z) w /\
  get_stats (Some page) None w = get_stats (Some page) (Some 20%Z) w /\
  get_stats None (Some limit) w = get_stats (Some 1%Z) (Some limit) w.
Proof.
  intros Hl Ho. repeat split.
  - eexists. split; [apply get_stats_ok; assumption|].
    cbn [Stats.page Stats.limit Stats.links].
    repeat split; intros; lia.
  - rewrite !get_stats_unfold. cbn [arg]. cbv zeta.
    rewrite !clamp_page_max, !clamp_limit_min.
    replace (Z.max 1 (Z.max 1 page)) with (Z.max 1 page) by lia.
    replace (Z.min 100 (Z.min 100 limit)) with (Z.min 100 limit) by lia.
    reflexivity.
Qed.

Lemma get_stats_clamps_witness :
  (0 <= 200)%Z /\
  ((Z.max 1 0 - 1) * Z.min 100 200 <= bigint_max)%Z /\
  exists stats,
    get_stats (Some 0%Z) (Some 200%Z) five_links_world
    = (Ok stats, five_links_world) /\
    Stats.page stats = 1%Z /\ Stats.limit stats = 100%Z /\
    List.length (Stats.links stats) = 5.
Proof.
  assert (H1 : (0 <= 200)%Z) by lia.
  assert (H2 : ((Z.max 1 0 - 1) * Z.min 100 200 <= bigint_max)%Z)
    by (vm_compute; discriminate).
  split; [exact H1|]. split; [exact H2|].
  destruct (get_stats_clamps five_links_world 0 200 H1 H2)
    as ((stats & H & Hp & Hl & Hlinks & _) & _).
  exists stats. split; [exact H|]. split; [exact Hp|]. split; [exact Hl|].
  rewrite Hlinks. vm_compute. reflexivity.
Defined.

(** ** C10 *)

(** C10. Lower-bound pass-through: [get_stats] clamps [limit] only from
    above.  Called with [limit = 0] and any page, it returns an empty
    [links] list and echoes [limit = 0], whatever the store holds, while
    [total_links] is still the number of stored links. *)
Theorem get_stats_limit_zero (w : World) (page : option Z) :
  get_stats page (Some 0%Z) w
  = (Ok (Stats.mk (Z.max 1 (arg 1%Z page)) 0 (List.length (links w)) []), w).
Proof.
  destruct page as [p|]; cbn [arg].
  - rewrite get_stats_ok by (unfold bigint_max; lia). reflexivity.
  - change (get_stats None (Some 0%Z) w) with (get_stats (Some 1%Z) (Some 0%Z) w).
    rewrite get_stats_ok by (unfold bigint_max; lia). reflexivity.
Qed.

Example get_stats_limit_zero_example :
  get_stats (Some 1%Z) (Some 0%Z) five_links_world
  = (Ok (Stats.mk 1 0 5 []), five_links_world).
Proof. vm_compute. reflexivity. Qed.

(* ================================================================== *)
(** * The redirect handler *)
(* ================================================================== *)

Lemma find_by_unique_key {A} (key : A -> string) (xs : list A) (a : A) :
  NoDup (map key xs) -> In a xs ->
  find (fun x => (key x =? key a)%string) xs = Some a.
Proof.
  induction xs as [|x xs IH]; cbn [map find In]; [tauto|].
  intros Hnd Hin. inversion Hnd as [|? ? Hnotin Hnd']; subst.
  destruct (String.eqb_spec (key x) (key a)) as [Heq | Hne].
  - destruct Hin as [-> | Hin]; [reflexivity|].
    exfalso. apply Hnotin. rewrite Heq. apply in_map. exact Hin.
  - destruct Hin as [-> | Hin]; [congruence | apply IH; assumption].
Qed.


Lemma references_stored_link (l : Link.t) (w : World) :
  In l (links w) -> references_link (next_click (Link.id l) w) (links w) = true.
Proof.
  intros Hin. unfold references_link. apply existsb_exists.
  exists l. split; [exact Hin | apply N.eqb_refl].
Qed.

Lemma clicks_of_snoc (id : UUID) (cs : list Click.t) (c : Click.t) :
  clicks_of id (cs ++ [c])
  = clicks_of id cs ++ (if (Click.link_id c =? id)%N then [c] else []).
Proof. unfold clicks_of. rewrite filter_app. reflexivity. Qed.

(** Never a 403: the only [raise] of that status sits behind the stub. *)
Lemma redirect_never_forbidden (code : string) (w : World) (detail : string) :
  fst (redirect_short_link code w) <> Raise (HTTPException 403 detail).
Proof.
  unfold redirect_short_link, get_link_by_short_code, query_link_first,
    simulate_fraud_check, bind at 1.
  destruct (find (fun l => (Link.short_code l =? code)%string) (links w)) as [l|].
  - unfold ret at 1, bind at 1. cbn [negb]. unfold bind.
    rewrite record_click_step.
    destruct (references_link (next_click (Link.id l) w) (links w));
      cbn; discriminate.
  - cbn. discriminate.
Qed.

(** ** C7 *)

Lemma count_where_filter (p : Click.t -> bool) (rows : list Click.t) :
  count_where p rows = List.length (filter p rows).
Proof.
  induction rows as [|c rows IH]; [reflexivity|].
  cbn [count_where filter]. destruct (p c); cbn [List.length]; lia.
Qed.

Lemma count_where_clicks_of (id : UUID) (rows : list Click.t) :
  count_where (fun c => (Click.link_id c =? id)%N) rows
  = List.length (clicks_of id rows).
Proof. apply count_where_filter. Qed.

Lemma quote_keeps_unchanged (safe s : string) :
  quote_keeps safe s = true -> quote s safe = s.
Proof.
  unfold quote_keeps, all_chars. induction s as [|c s IH]; [reflexivity|].
  cbn [list_ascii_of_string forallb quote]. intros H.
  apply andb_prop in H. destruct H as [Hc Hs].
  rewrite Hc, (IH Hs). reflexivity.
Qed.

(** The claim as stated fails where the stored URL holds a character that
    the [Location] header does not carry as it is: the link stored for
    [https://fiverr.com/a b] is answered with
    [Location: https://fiverr.com/a%20b]. *)
Lemma redirect_location_counterexample :
  NoDup (map Link.short_code (links spaced_world)) /\
  In spaced_link (links spaced_world) /\
  exists r w',
    redirect_short_link (Link.short_code spaced_link) spaced_world = (Ok r, w') /\
    status_code r = 302%Z /\
    location r = "https://fiverr.com/a%20b" /\
    location r <> Link.target_url spaced_link.
Proof.
  split; [cbn; constructor; [intros [] | constructor]|].
  split; [left; reflexivity|].
  eexists. eexists. split; [vm_compute; reflexivity|].
  split; [reflexivity|]. split; [reflexivity | discriminate].
Qed.

(** C7 (amended). Redirect on a known code: in a store whose short codes
    are pairwise distinct, a redirect request with the [short_code] of a
    stored link passes the fraud check (the stub returns [True], and no
    request ever ends in a 403), appends exactly one [Click] referencing
    that link to the [clicks] table, so that the number of clicks
    referencing the link grows by exactly 1 while every other link's count
    and the [links] table are unchanged, and answers with status 302 and a
    [Location] header that is the stored [target_url] percent-encoded by
    [quote] with the safe characters [:/%#?=@[]!$&'()*+,;]: it is the
    exact stored [target_url] whenever the URL consists of ASCII letters,
    digits, [_.-~] and those safe characters. *)
Theorem redirect_known_code (w : World) (l : Link.t) :
  NoDup (map Link.short_code (links w)) ->
  In l (links w) ->
  let c := next_click (Link.id l) w in
  let w' := set_clicks (clicks w ++ [c]) (tick_world w) in
  simulate_fraud_check w = (Ok true, w) /\
  (exists r,
     redirect_short_link (Link.short_code l) w = (Ok r, w') /\
     status_code r = 302%Z /\
     location r = quote (Link.target_url l) redirect_safe /\
     (quote_keeps redirect_safe (Link.target_url l) = true ->
      location r = Link.target_url l)) /\
  clicks w' = clicks w ++ [c] /\
  Click.link_id c = Link.id l /\
  links w' = links w /\
  count_where (fun k => (Click.link_id k =? Link.id l)%N) (clicks w')
  = S (count_where (fun k => (Click.link_id k =? Link.id l)%N) (clicks w)) /\
  (forall id, id <> Link.id l ->
     count_where (fun k => (Click.link_id k =? id)%N) (clicks w')
     = count_where (fun k => (Click.link_id k =? id)%N) (clicks w)) /\
  (forall code w0 detail,
     fst (redirect_short_link code w0) <> Raise (HTTPException 403 detail)).
Proof.
  intros Hnd Hin c w'. repeat split.
  - exists (RedirectResponse (Link.target_url l) 302). repeat split.
    + unfold redirect_short_link, get_link_by_short_code, query_link_first,
        simulate_fraud_check, bind at 1.
      rewrite (find_by_unique_key Link.short_code (links w) l Hnd Hin).
      unfold ret at 1, bind at 1. cbn [negb]. unfold bind.
      rewrite record_click_step, (references_stored_link l w Hin). reflexivity.
    + intros Hsafe. cbn [RedirectResponse location].
      apply quote_keeps_unchanged. exact Hsafe.
  - rewrite !count_where_clicks_of.
    cbn [w' set_clicks clicks]. rewrite clicks_of_snoc.
    cbn [c next_click Click.link_id]. rewrite N.eqb_refl, length_app.
    cbn [List.length]. lia.
  - intros id Hid. rewrite !count_where_clicks_of.
    cbn [w' set_clicks clicks]. rewrite clicks_of_snoc.
    cbn [c next_click Click.link_id].
    destruct (N.eqb_spec (Link.id l) id) as [Heq | _]; [congruence|].
    rewrite app_nil_r. reflexivity.
  - intros code w0 detail. apply redirect_never_forbidden.
Qed.

Lemma redirect_known_code_witness :
  NoDup (map Link.short_code (links two_links_clicked_world)) /\
  In first_link (links two_links_clicked_world) /\
  exists r w',
    redirect_short_link "ahov29" two_links_clicked_world = (Ok r, w') /\
    status_code r = 302%Z /\
    location r = "https://fiverr.com/jane/web-design" /\
    clicks w' = clicks two_links_clicked_world ++ [Click.mk 7%N 0%N noon] /\
    count_where (fun k => (Click.link_id k =? Link.id first_link)%N)
                (clicks two_links_clicked_world) = 3 /\
    count_where (fun k => (Click.link_id k =? Link.id first_link)%N)
                (clicks w') = 4 /\
    count_where (fun k => (Click.link_id k =? Link.id second_link)%N)
                (clicks w') = 2.
Proof.
  assert (Hnd : NoDup (map Link.short_code (links two_links_clicked_world))).
  { cbn. constructor; [intros [H | []]; discriminate H|].
    constructor; [intros [] | constructor]. }
  assert (Hin : In first_link (links two_links_clicked_world))
    by (left; reflexivity).
  split; [exact Hnd|]. split; [exact Hin|].
  destruct (redirect_known_code two_links_clicked_world first_link Hnd Hin)
    as (_ & (r & Hr & Hs & _ & Hloc) & Hclicks & _ & _ & Hcount & _).
  exists r. eexists. split; [exact Hr|]. split; [exact Hs|].
  split; [apply Hloc; reflexivity|]. split; [exact Hclicks|].
  split; [reflexivity|]. split; [rewrite Hcount; reflexivity|].
  vm_compute. reflexivity.
Defined.

(** ** C8 *)



(* ================================================================== *)
(** * The stats aggregator: monthly breakdown *)
(* ================================================================== *)

Lemma ascii_compare_lt_trans (a b c : ascii) :
  Ascii.compare a b = Lt -> Ascii.compare b c = Lt -> Ascii.compare a c = Lt.
Proof.
  unfold Ascii.compare. rewrite !N.compare_lt_iff. lia.
Qed.

Lemma string_lt_trans (a b c : string) :
  string_lt a b -> string_lt b c -> string_lt a c.
Proof.
  unfold string_lt. revert b c.
  induction a as [|x a IH]; intros [|y b] [|z c]; cbn [String.compare];
    try discriminate; try reflexivity.
  destruct (Ascii.compare x y) eqn:Exy; try discriminate;
    destruct (Ascii.compare y z) eqn:Eyz; try discriminate; intros H1 H2.
  - apply Ascii.compare_eq_iff in Exy, Eyz. subst.
    assert (Hzz : Ascii.compare z z = Eq)
      by (unfold Ascii.compare; apply N.compare_refl).
    rewrite Hzz. exact (IH b c H1 H2).
  - apply Ascii.compare_eq_iff in Exy. subst. rewrite Eyz. reflexivity.
  - apply Ascii.compare_eq_iff in Eyz. subst. rewrite Exy. reflexivity.
  - rewrite (ascii_compare_lt_trans x y z Exy Eyz). reflexivity.
Qed.

Lemma string_lt_neq (a b : string) : string_lt a b -> a <> b.
Proof.
  unfold string_lt. intros H ->.
  pose proof (String.compare_antisym b b) as Hanti.
  rewrite H in Hanti. discriminate.
Qed.













(** *** The format of a month string *)

Lemma format_year_digits (y : Z) :
  (MINYEAR <= y <= MAXYEAR)%Z -> four_digits (format_0d 4 y) = true.
Proof.
  intros Hy.
  assert (Hall : forallb (fun n => four_digits (format_0d 4 (Z.of_nat n)))
                         (seq 1 (Z.to_nat MAXYEAR)) = true)
    by (vm_compute; reflexivity).
  rewrite forallb_forall in Hall.
  rewrite <- (Z2Nat.id y) by (unfold MINYEAR in Hy; lia).
  apply Hall. apply in_seq. unfold MINYEAR, MAXYEAR in *. lia.
Qed.

Lemma format_month_digits (m : Z) :
  (1 <= m <= 12)%Z -> two_digits (format_0d 2 m) = true.
Proof.
  intros Hm.
  assert (Hc : (m = 1 \/ m = 2 \/ m = 3 \/ m = 4 \/ m = 5 \/ m = 6 \/ m = 7 \/
                m = 8 \/ m = 9 \/ m = 10 \/ m = 11 \/ m = 12)%Z) by lia.
  repeat (destruct Hc as [-> | Hc]; [reflexivity|]). subst. reflexivity.
Qed.

Lemma to_char_YYYY_MM_format (d : datetime) :
  valid_datetime d = true -> matches_YYYY_MM (to_char_YYYY_MM d) = true.
Proof.
  unfold valid_datetime. intros H.
  repeat (apply andb_prop in H; destruct H as [H ?]).
  assert (Hy : four_digits (format_0d 4 (year d)) = true)
    by (apply format_year_digits; lia).
  assert (Hm : two_digits (format_0d 2 (month d)) = true)
    by (apply format_month_digits; lia).
  unfold to_char_YYYY_MM.
  destruct (format_0d 4 (year d)) as [|a [|b [|c [|e [|? ?]]]]]; try discriminate.
  destruct (format_0d 2 (month d)) as [|f [|g [|? ?]]]; try discriminate.
  cbn [four_digits two_digits] in Hy, Hm.
  apply andb_prop in Hm. destruct Hm as [Hf Hg].
  cbn [String.append matches_YYYY_MM]. rewrite Hy, Hf, Hg. reflexivity.
Qed.

(** ** C5 *)






(* ================================================================== *)
(** * The stats aggregator: click totals and earnings *)
(* ================================================================== *)

Lemma after_record_click_stored (l : Link.t) (w : World) :
  In l (links w) ->
  after (RecordClick (Link.id l)) w
  = set_clicks (clicks w ++ [next_click (Link.id l) w]) (tick_world w).
Proof.
  intros Hin. cbn [after].
  rewrite record_click_step, (references_stored_link l w Hin). reflexivity.
Qed.

Lemma record_clicks_count (l : Link.t) (n : nat) (w : World) :
  In l (links w) ->
  links (after_all (repeat (RecordClick (Link.id l)) n) w) = links w /\
  List.length (clicks_of (Link.id l)
                 (clicks (after_all (repeat (RecordClick (Link.id l)) n) w)))
  = n + List.length (clicks_of (Link.id l) (clicks w)).
Proof.
  revert w. induction n as [|n IH]; intros w Hin; [split; reflexivity|].
  cbn [repeat after_all fold_left].
  fold (after_all (repeat (RecordClick (Link.id l)) n)
                  (after (RecordClick (Link.id l)) w)).
  rewrite (after_record_click_stored l w Hin).
  destruct (IH (set_clicks (clicks w ++ [next_click (Link.id l) w]) (tick_world w)))
    as [Hl Hc]; [exact Hin|].
  rewrite Hl, Hc. split; [reflexivity|].
  cbn [set_clicks clicks]. rewrite clicks_of_snoc.
  cbn [next_click Click.link_id]. rewrite N.eqb_refl, length_app.
  cbn [List.length]. lia.
Qed.

Lemma link_stats_pure (l : Link.t) (w : World) :
  link_stats l w = (Ok (stats_of w l), w).
Proof. reflexivity. Qed.

(** The literal [0.05] and the product [10 * 0.05], bit for bit. *)
Example EARNINGS_PER_CLICK_bits :
  EARNINGS_PER_CLICK = S754_finite false 7205759403792794 (-57).
Proof. vm_compute. reflexivity. Qed.

(** [round] on exact ties and near-ties: [round(0.125, 2) = 0.12],
    [round(0.375, 2) = 0.38] and [round(2.675, 2) = 2.67]. *)
Example round_ties :
  round (float_of_decimal false 125 3) 2 = float_of_decimal false 12 2 /\
  round (float_of_decimal false 375 3) 2 = float_of_decimal false 38 2 /\
  round (float_of_decimal false 2675 3) 2 = float_of_decimal false 267 2.
Proof. vm_compute. repeat split. Qed.

Lemma float_same_eq (x y : float) : float_same x y = true -> x = y.
Proof.
  destruct x as [s1|s1| |s1 m1 e1], y as [s2|s2| |s2 m2 e2];
    cbn [float_same]; try discriminate; intros H.
  - apply Bool.eqb_prop in H. congruence.
  - apply Bool.eqb_prop in H. congruence.
  - reflexivity.
  - apply andb_prop in H. destruct H as [H He].
    apply andb_prop in H. destruct H as [Hs Hm].
    apply Bool.eqb_prop in Hs. apply Pos.eqb_eq in Hm. apply Z.eqb_eq in He.
    congruence.
Qed.

(** The earnings of every click count up to 2000, checked one by one. *)
Lemma earnings_cents_table :
  forallb
    (fun k => float_same
       (round (float_mul (float_of_int (Z.of_nat k)) EARNINGS_PER_CLICK) 2)
       (float_of_decimal false (5 * Z.of_nat k) 2))
    (seq 0 (Z.to_nat 2001)) = true.
Proof. vm_compute. reflexivity. Qed.

Lemma earnings_cents (n : nat) :
  n <= 2000 ->
  round (float_mul (float_of_int (Z.of_nat n)) EARNINGS_PER_CLICK) 2
  = float_of_decimal false (5 * Z.of_nat n) 2.
Proof.
  intros Hn. pose proof earnings_cents_table as Hall.
  rewrite forallb_forall in Hall.
  apply float_same_eq. apply Hall. apply in_seq. lia.
Qed.

(** For up to 2000 clicks the earnings are the double nearest to the
    exact amount [5 * n / 100]. *)
Lemma earnings_nearest_cent (n : nat) :
  n <= 2000 ->
  round (float_mul (float_of_int (Z.of_nat n)) EARNINGS_PER_CLICK) 2
  = float_of_decimal false (5 * Z.of_nat n) 2.
Proof.
  intros Hn. apply float_same_eq.
  pose proof earnings_cents_table as Hall.
  rewrite forallb_forall in Hall.
  apply Hall. apply in_seq. lia.
Qed.

Lemma record_clicks_count_where (l : Link.t) (n : nat) (w : World) :
  In l (links w) ->
  count_where (fun c => (Click.link_id c =? Link.id l)%N)
              (clicks (after_all (repeat (RecordClick (Link.id l)) n) w))
  = n + count_where (fun c => (Click.link_id c =? Link.id l)%N) (clicks w).
Proof.
  intros Hin. destruct (record_clicks_count l n w Hin) as [_ Hc].
  rewrite <- !count_where_clicks_of in Hc. exact Hc.
Qed.

(** ** C6 *)

(** C6. Earnings derivation: each entry [s] of a [get_stats] result
    belongs to a stored link [l]; its [total_clicks] is the number of
    rows of the [clicks] table whose [link_id] is the id of [l], and its
    [total_earnings] is [round(total_clicks * 0.05, 2)] in binary64
    arithmetic, which for up to 2000 clicks is the double nearest to the
    decimal amount [5 * total_clicks / 100].  Recording [N] clicks against
    a stored link that had none yields [total_clicks = N] and
    [total_earnings = round(N * 0.05, 2)], whatever other links were
    clicked.  For [N = 10] the earnings are the double [0.5], which is
    what the literal [0.50] denotes; for [N = 3] and [N = 7] the product
    [N * 0.05] is one unit in the last place above the doubles [0.15] and
    [0.35], and rounding brings it down to them. *)
Theorem earnings_derivation :
  (forall w w' page limit stats s,
     get_stats page limit w = (Ok stats, w') ->
     In s (Stats.links stats) ->
     exists l,
       In l (links w) /\
       LinkStats.short_code s = Link.short_code l /\
       LinkStats.target_url s = Link.target_url l /\
       LinkStats.total_clicks s
       = count_where (fun c => (Click.link_id c =? Link.id l)%N) (clicks w) /\
       LinkStats.total_earnings s
       = round (float_mul (float_of_int (Z.of_nat (LinkStats.total_clicks s)))
                          EARNINGS_PER_CLICK) 2 /\
       (LinkStats.total_clicks s <= 2000 ->
        LinkStats.total_earnings s
        = float_of_decimal false (5 * Z.of_nat (LinkStats.total_clicks s)) 2)) /\
  (forall w l N,
     In l (links w) ->
     count_where (fun c => (Click.link_id c =? Link.id l)%N) (clicks w) = 0 ->
     let wN := after_all (repeat (RecordClick (Link.id l)) N) w in
     exists s,
       link_stats l wN = (Ok s, wN) /\
       In l (links wN) /\
       count_where (fun c => (Click.link_id c =? Link.id l)%N) (clicks wN) = N /\
       LinkStats.total_clicks s = N /\
       LinkStats.total_earnings s
       = round (float_mul (float_of_int (Z.of_nat N)) EARNINGS_PER_CLICK) 2 /\
       (N <= 2000 ->
        LinkStats.total_earnings s = float_of_decimal false (5 * Z.of_nat N) 2)) /\
  round (float_mul (float_of_int 10) EARNINGS_PER_CLICK) 2 = one_half /\
  float_of_decimal false 50 2 = one_half /\
  float_mul (float_of_int 3) EARNINGS_PER_CLICK
  = S754_finite false 5404319552844596 (-55) /\
  round (float_mul (float_of_int 3) EARNINGS_PER_CLICK) 2
  = S754_finite false 5404319552844595 (-55) /\
  float_of_decimal false 15 2 = S754_finite false 5404319552844595 (-55) /\
  float_mul (float_of_int 7) EARNINGS_PER_CLICK
  = S754_finite false 6305039478318695 (-54) /\
  round (float_mul (float_of_int 7) EARNINGS_PER_CLICK) 2
  = S754_finite false 6305039478318694 (-54) /\
  float_of_decimal false 35 2 = S754_finite false 6305039478318694 (-54).
Proof.
  split; [|split].
  - intros w w' page limit stats s Hget Hs.
    destruct (get_stats_entry _ _ _ _ _ _ Hget Hs) as (l & Hl & ->).
    exists l.
    cbn [stats_of LinkStats.short_code LinkStats.target_url
         LinkStats.total_clicks LinkStats.total_earnings].
    split; [exact Hl|]. split; [reflexivity|]. split; [reflexivity|].
    split; [symmetry; apply count_where_clicks_of|].
    split; [reflexivity|]. apply earnings_cents.
  - intros w l N Hin Hnone wN.
    destruct (record_clicks_count l N w Hin) as [Hl _].
    pose proof (record_clicks_count_where l N w Hin) as Hc.
    fold wN in Hl, Hc. rewrite Hnone, Nat.add_0_r in Hc.
    exists (stats_of wN l). split; [apply link_stats_pure|].
    split; [rewrite Hl; exact Hin|]. split; [exact Hc|].
    cbn [stats_of LinkStats.total_clicks LinkStats.total_earnings].
    rewrite <- count_where_clicks_of, Hc.
    split; [reflexivity|]. split; [reflexivity|]. apply earnings_cents.
  - vm_compute. repeat split.
Qed.

Lemma earnings_derivation_witness :
  In first_link (links second_clicked_world) /\
  count_where (fun c => (Click.link_id c =? Link.id first_link)%N)
              (clicks second_clicked_world) = 0 /\
  List.length (clicks second_clicked_world) = 2 /\
  exists s,
    link_stats first_link
      (after_all (repeat (RecordClick (Link.id first_link)) 3)
                 second_clicked_world)
    = (Ok s,
       after_all (repeat (RecordClick (Link.id first_link)) 3)
                 second_clicked_world) /\
    List.length
      (clicks (after_all (repeat (RecordClick (Link.id first_link)) 3)
                         second_clicked_world)) = 5 /\
    LinkStats.total_clicks s = 3 /\
    LinkStats.total_earnings s = S754_finite false 5404319552844595 (-55) /\
    LinkStats.total_earnings s
    <> float_mul (float_of_int 3) EARNINGS_PER_CLICK.
Proof.
  assert (Hin : In first_link (links second_clicked_world))
    by (left; reflexivity).
  split; [exact Hin|]. split; [reflexivity|]. split; [reflexivity|].
  destruct earnings_derivation as (_ & Hrec & _).
  destruct (Hrec second_clicked_world first_link 3 Hin eq_refl)
    as (s & Hs & _ & _ & Hclicks & Hearn & _).
  assert (He : LinkStats.total_earnings s
               = S754_finite false 5404319552844595 (-55))
    by (rewrite Hearn; vm_compute; reflexivity).
  exists s. split; [exact Hs|]. split; [vm_compute; reflexivity|].
  split; [exact Hclicks|]. split; [exact He|].
  rewrite He. vm_compute. discriminate.
Defined.

(* ================================================================== *)
(** * Request validation ([app/schemas.py]) *)
(* ================================================================== *)

Lemma rstrip_keep (drop : ascii -> bool) (c : ascii) (s : string) :
  drop c = false -> rstrip drop (String c s) = String c (rstrip drop s).
Proof.
  intros H. cbn [rstrip]. rewrite H. destruct (rstrip drop s); reflexivity.
Qed.

Lemma rstrip_app_kept (drop : ascii -> bool) (p s : string) :
  all_chars (fun c => negb (drop c)) p = true ->
  rstrip drop (p ++ s)%string = (p ++ rstrip drop s)%string.
Proof.
  unfold all_chars. induction p as [|c p IH]; intros H; [reflexivity|].
  cbn [list_ascii_of_string forallb] in H. apply andb_prop in H.
  destruct H as [Hc Hp]. cbn [String.append].
  rewrite rstrip_keep by (apply negb_true_iff; exact Hc).
  rewrite IH by exact Hp. reflexivity.
Qed.

Lemma rstrip_split (drop : ascii -> bool) (s : string) :
  exists tail, s = (rstrip drop s ++ tail)%string /\ all_chars drop tail = true.
Proof.
  induction s as [|c s (tail & Hs & Ht)]; [exists ""; split; reflexivity|].
  cbn [rstrip]. destruct (rstrip drop s) as [|r rs] eqn:E.
  - destruct (drop c) eqn:Hc.
    + exists (String c tail). split.
      * cbn [String.append] in *. rewrite <- Hs. reflexivity.
      * unfold all_chars in *. cbn [list_ascii_of_string forallb].
        rewrite Hc, Ht. reflexivity.
    + exists tail. split; [|exact Ht].
      cbn [String.append] in *. rewrite <- Hs. reflexivity.
  - exists tail. split; [|exact Ht].
    cbn [String.append] in *. rewrite <- Hs. reflexivity.
Qed.

Lemma rstrip_cons (drop : ascii -> bool) (c : ascii) (s : string) :
  rstrip drop (String c s)
  = match rstrip drop s with
    | EmptyString => if drop c then EmptyString else String c EmptyString
    | r => String c r
    end.
Proof. reflexivity. Qed.

Lemma rstrip_idempotent (drop : ascii -> bool) (s : string) :
  rstrip drop (rstrip drop s) = rstrip drop s.
Proof.
  induction s as [|c s IH]; [reflexivity|].
  rewrite (rstrip_cons drop c s).
  destruct (rstrip drop s) as [|r rs] eqn:E.
  - destruct (drop c) eqn:Hc; [reflexivity|].
    rewrite rstrip_cons. cbn [rstrip]. rewrite Hc. reflexivity.
  - rewrite rstrip_cons, IH. reflexivity.
Qed.

Lemma startswith_app (p s : string) :
  startswith p s = true <-> exists rest, s = (p ++ rest)%string.
Proof.
  revert s. induction p as [|a p IH]; intros s; cbn [startswith].
  - split; [intros _; exists s; reflexivity | reflexivity].
  - destruct s as [|b s].
    + split; [discriminate | intros [rest H]; discriminate].
    + split.
      * intros H. apply andb_prop in H. destruct H as [Hab Hp].
        apply Ascii.eqb_eq in Hab. subst b.
        apply IH in Hp. destruct Hp as [rest ->]. exists rest. reflexivity.
      * intros [rest H]. cbn [String.append] in H. inversion H; subst.
        rewrite Ascii.eqb_refl. apply IH. exists rest. reflexivity.
Qed.

Lemma lstrip_head_kept (drop : ascii -> bool) (c : ascii) (s : string) :
  drop c = false -> lstrip drop (String c s) = String c s.
Proof. intros H. cbn [lstrip]. rewrite H. reflexivity. Qed.

(** A text that begins with a scheme loses only trailing whitespace, and
    keeps the scheme. *)
Lemma strip_with_scheme (v : string) :
  has_scheme v = true ->
  strip v = rstrip isspace v /\ has_scheme (strip v) = true /\ strip v <> "".
Proof.
  unfold has_scheme. intros H. apply orb_prop in H.
  destruct H as [H | H]; apply startswith_app in H; destruct H as [rest ->].
  - assert (Hs : strip ("http://" ++ rest) = ("http://" ++ rstrip isspace rest)%string).
    { unfold strip. cbn [String.append]. rewrite lstrip_head_kept by reflexivity.
      apply (rstrip_app_kept isspace "http://" rest). reflexivity. }
    rewrite Hs. repeat split.
    + symmetry. apply (rstrip_app_kept isspace "http://" rest). reflexivity.
    + discriminate.
  - assert (Hs : strip ("https://" ++ rest) = ("https://" ++ rstrip isspace rest)%string).
    { unfold strip. cbn [String.append]. rewrite lstrip_head_kept by reflexivity.
      apply (rstrip_app_kept isspace "https://" rest). reflexivity. }
    rewrite Hs. repeat split.
    + symmetry. apply (rstrip_app_kept isspace "https://" rest). reflexivity.
    + discriminate.
Qed.

Lemma validate_url_with_scheme (v : string) :
  has_scheme v = true -> validate_url v = Valid (strip v).
Proof.
  intros H. destruct (strip_with_scheme v H) as (_ & _ & Hne).
  unfold validate_url. fold (has_scheme v). rewrite H.
  assert (Hv : (v =? "")%string = false).
  { apply String.eqb_neq. intros ->. discriminate. }
  assert (Hs : (strip v =? "")%string = false) by (apply String.eqb_neq; exact Hne).
  rewrite Hv, Hs. reflexivity.
Qed.

Lemma validate_url_without_scheme (v : string) :
  has_scheme v = false -> exists msg, validate_url v = ValueError msg.
Proof.
  intros H. unfold validate_url. fold (has_scheme v). rewrite H.
  destruct ((v =? "")%string || (strip v =? "")%string); eexists; reflexivity.
Qed.

(** X1. A URL that [validate_url] accepts is the submitted text without
    its trailing whitespace: nothing else is removed, the result is not
    empty, still begins with [http://] or [https://], carries no trailing
    whitespace, and is accepted unchanged when validated again. *)
Theorem validate_url_accepted (v u : string) :
  validate_url v = Valid u ->
  (exists spaces, v = (u ++ spaces)%string /\ all_chars isspace spaces = true) /\
  u <> "" /\
  has_scheme u = true /\
  rstrip isspace u = u /\
  validate_url u = Valid u.
Proof.
  intros H.
  destruct (has_scheme v) eqn:Hv.
  - rewrite (validate_url_with_scheme v Hv) in H. inversion H; subst u.
    destruct (strip_with_scheme v Hv) as (Hr & Hscheme & Hne).
    assert (Hfix : rstrip isspace (strip v) = strip v)
      by (rewrite Hr; apply rstrip_idempotent).
    repeat split.
    + rewrite Hr. apply rstrip_split.
    + exact Hne.
    + exact Hscheme.
    + exact Hfix.
    + rewrite (validate_url_with_scheme _ Hscheme).
      destruct (strip_with_scheme _ Hscheme) as (Hr2 & _ & _).
      rewrite Hr2, Hfix. reflexivity.
  - destruct (validate_url_without_scheme v Hv) as [msg Hmsg]. congruence.
Qed.

Lemma validate_url_accepted_witness :
  validate_url "https://fiverr.com/john/logo-design  "
  = Valid "https://fiverr.com/john/logo-design" /\
  validate_url "https://fiverr.com/john/logo-design"
  = Valid "https://fiverr.com/john/logo-design".
Proof.
  split; [reflexivity|].
  exact (proj2 (proj2 (proj2 (proj2
    (validate_url_accepted "https://fiverr.com/john/logo-design  "
                           "https://fiverr.com/john/logo-design" eq_refl))))).
Defined.

(** X2. [validate_url] accepts a text exactly when the text itself begins
    with [http://] or [https://]; every other text raises [ValueError].
    Empty and whitespace-only texts get the message "cannot be empty", and
    a URL preceded by whitespace is rejected although stripping it would
    make it valid. *)
Theorem validate_url_accepts_iff (v : string) :
  ((exists u, validate_url v = Valid u) <-> has_scheme v = true) /\
  (has_scheme v = false -> exists msg, validate_url v = ValueError msg) /\
  (strip v = "" ->
   validate_url v = ValueError "target_url cannot be empty") /\
  (forall c rest, isspace c = true ->
     validate_url (String c rest)
     = ValueError (if (strip rest =? "")%string
                   then "target_url cannot be empty"
                   else "target_url must start with http:// or https://")).
Proof.
  repeat split.
  - intros [u Hu]. destruct (has_scheme v) eqn:Hv; [reflexivity|].
    destruct (validate_url_without_scheme v Hv) as [msg Hmsg]. congruence.
  - intros Hv. exists (strip v). apply validate_url_with_scheme. exact Hv.
  - apply validate_url_without_scheme.
  - intros Hs. unfold validate_url. rewrite Hs. cbn [String.eqb].
    rewrite orb_true_r. reflexivity.
  - intros c rest Hc. unfold validate_url.
    assert (Hstrip : strip (String c rest) = strip rest)
      by (unfold strip; cbn [lstrip]; rewrite Hc; reflexivity).
    rewrite Hstrip. cbn [String.eqb orb].
    assert (Hno : (startswith "http://" (String c rest)
                   || startswith "https://" (String c rest)) = false).
    { cbn [startswith].
      destruct (Ascii.eqb_spec "h" c) as [<- | _]; [discriminate Hc | reflexivity]. }
    rewrite Hno. destruct (strip rest =? "")%string; reflexivity.
Qed.

Lemma validate_url_accepts_iff_witness :
  has_scheme " https://fiverr.com/a/svc1" = false /\
  validate_url " https://fiverr.com/a/svc1"
  = ValueError "target_url must start with http:// or https://".
Proof.
  split; [reflexivity|].
  exact (proj2 (proj2 (proj2 (validate_url_accepts_iff " https://fiverr.com/a/svc1")))
           " "%char "https://fiverr.com/a/svc1" eq_refl).
Defined.

(* ================================================================== *)
(** * More on the code generator and the link store *)
(* ================================================================== *)

(** X3. [generate_short_code(length)] for any [length]: it always
    returns, the code has exactly [max(length, 0)] characters, all from
    [[a-z0-9]], it consumes exactly that many random draws and touches
    nothing else; the code is the one the draws at the current position
    select.  The default length is 6. *)
Theorem generate_short_code_any_length (length : option Z) (w : World) :
  let n := Z.to_nat (arg 6%Z length) in
  let code := code_from (entropy w) (entropy_pos w) n in
  generate_short_code length w = (Ok code, draw_entropy n w) /\
  String.length code = n /\
  all_chars in_alphabet code = true /\
  links (draw_entropy n w) = links w /\
  clicks (draw_entropy n w) = clicks w /\
  uuid_next (draw_entropy n w) = uuid_next w /\
  entropy_pos (draw_entropy n w) = n + entropy_pos w.
Proof.
  intros n code. repeat split.
  - apply (join_choices_alphabet n w).
  - apply code_from_length.
  - apply code_from_alphabet.
Qed.

(** X4. What a returned [create_link] means: the link carries the
    requested URL and is a stored row, the [clicks] table is untouched,
    [is_new] is false exactly when a row for that URL was already stored
    (and then the world is unchanged), and a new row is appended at the
    end of the table with a well-formed code that no earlier row uses. *)
Theorem create_link_returned (target_url : string) (w w1 : World)
        (l : Link.t) (is_new : bool) :
  create_link target_url w = (Ok (l, is_new), w1) ->
  Link.target_url l = target_url /\
  In l (links w1) /\
  clicks w1 = clicks w /\
  (is_new = false <->
   exists l0, In l0 (links w) /\ Link.target_url l0 = target_url) /\
  (is_new = false -> w1 = w) /\
  (is_new = true ->
   links w1 = links w ++ [l] /\
   well_formed_code (Link.short_code l) = true /\
   ~ In (Link.short_code l) (map Link.short_code (links w))).
Proof.
  unfold create_link, bind, query_link_first, ret.
  destruct (find (fun l0 => (Link.target_url l0 =? target_url)%string) (links w))
    as [existing|] eqn:Hfind.
  - intros H. inversion H; subst. apply find_some in Hfind.
    destruct Hfind as [Hin Heq]. apply String.eqb_eq in Heq.
    repeat split; try assumption; try reflexivity; try discriminate.
    intros _. exists l. split; assumption.
  - intros H. apply create_link_attempts_ok in H.
    destruct H as (-> & Hl & Hc & Hu & Hwf & Hv).
    repeat split; try assumption; try discriminate.
    + rewrite Hl. apply in_or_app. right. left. reflexivity.
    + intros (l0 & Hin & Hurl).
      pose proof (find_none _ _ Hfind l0 Hin) as Hno. cbn in Hno.
      rewrite Hurl, String.eqb_refl in Hno. discriminate.
    + apply violates_unique_false_code. exact Hv.
Qed.

Lemma create_link_returned_witness :
  create_link "https://fiverr.com/jane/web-design" empty_world
  = (Ok (first_link, true), one_link_world) /\
  Link.target_url first_link = "https://fiverr.com/jane/web-design" /\
  links one_link_world = links empty_world ++ [first_link].
Proof.
  assert (H : create_link "https://fiverr.com/jane/web-design" empty_world
              = (Ok (first_link, true), one_link_world)) by reflexivity.
  split; [exact H|].
  destruct (create_link_returned _ _ _ _ _ H) as (Hu & _ & _ & _ & _ & Hnew).
  split; [exact Hu | exact (proj1 (Hnew eq_refl))].
Defined.

(* ================================================================== *)
(** * Invariants of the two tables *)
(* ================================================================== *)

Lemma violates_unique_false_url (l : Link.t) (rows : list Link.t) :
  violates_unique l rows = false ->
  ~ In (Link.target_url l) (map Link.target_url rows).
Proof.
  unfold violates_unique. induction rows as [|r rows IH]; cbn; [tauto|].
  intros H. apply orb_false_elim in H. destruct H as [Hr Hrest].
  apply orb_false_elim in Hr. destruct Hr as [_ Hu].
  intros [Heq | Hin].
  - rewrite Heq, String.eqb_refl in Hu. discriminate.
  - exact (IH Hrest Hin).
Qed.

Lemma NoDup_map_snoc {A B} (f : A -> B) (xs : list A) (x : A) :
  NoDup (map f xs) -> ~ In (f x) (map f xs) -> NoDup (map f (xs ++ [x])).
Proof.
  intros Hnd Hnotin. rewrite map_app. cbn [map].
  apply (Permutation_NoDup (Permutation_cons_append _ _)).
  constructor; assumption.
Qed.

Lemma extends_refl {A} (xs : list A) : extends xs xs.
Proof. exists []. symmetry. apply app_nil_r. Qed.

Lemma extends_trans {A} (xs ys zs : list A) :
  extends xs ys -> extends ys zs -> extends xs zs.
Proof.
  intros [a ->] [b ->]. exists (a ++ b). symmetry. apply app_assoc.
Qed.

Lemma redirect_step (code : string) (w : World) :
  redirect_short_link code w
  = match find (fun l => (Link.short_code l =? code)%string) (links w) with
    | None => (Raise (HTTPException 404 "Short link not found"), w)
    | Some l =>
        if references_link (next_click (Link.id l) w) (links w)
        then (Ok (RedirectResponse (Link.target_url l) 302),
              set_clicks (clicks w ++ [next_click (Link.id l) w]) (tick_world w))
        else (Raise IntegrityError, tick_world w)
    end.
Proof.
  unfold redirect_short_link, get_link_by_short_code, query_link_first,
    simulate_fraud_check, bind at 1.
  destruct (find (fun l => (Link.short_code l =? code)%string) (links w)) as [l|];
    [|reflexivity].
  unfold ret at 1, bind at 1. cbn [negb]. unfold bind.
  rewrite record_click_step.
  destruct (references_link (next_click (Link.id l) w) (links w)); reflexivity.
Qed.

Lemma after_clicks (c : call) (w : World) :
  clicks (after c w) = clicks w \/
  exists k, clicks (after c w) = clicks w ++ [k] /\
            references_link k (links w) = true.
Proof.
  destruct c as [u | i | p l | s]; cbn [after].
  - left. unfold create_link, bind, query_link_first.
    destruct (find _ (links w)); [reflexivity|].
    apply create_link_attempts_tables.
  - rewrite record_click_step.
    destruct (references_link (next_click i w) (links w)) eqn:E.
    + right. exists (next_click i w). split; [reflexivity | exact E].
    + left. reflexivity.
  - left. rewrite get_stats_world. reflexivity.
  - rewrite redirect_step.
    destruct (find (fun l => (Link.short_code l =? s)%string) (links w)) as [l|];
      [|left; reflexivity].
    destruct (references_link (next_click (Link.id l) w) (links w)) eqn:E.
    + right. exists (next_click (Link.id l) w). split; [reflexivity | exact E].
    + left. reflexivity.
Qed.

Lemma after_links (c : call) (w : World) :
  links (after c w) = links w \/
  exists l, links (after c w) = links w ++ [l] /\
            well_formed_code (Link.short_code l) = true /\
            violates_unique l (links w) = false.
Proof.
  destruct c as [u | i | p l | s]; cbn [after].
  - apply create_link_links.
  - left. apply record_click_links.
  - left. rewrite get_stats_world. reflexivity.
  - left. apply redirect_links.
Qed.

(** X5. Rows are only ever appended: whatever calls are made, the
    [links] table and the [clicks] table afterwards begin with the rows
    they held before, unchanged and in the same order; no call updates or
    deletes a row, and a single call adds at most one row to each table. *)
Theorem tables_append_only (cs : list call) (w : World) :
  extends (links w) (links (after_all cs w)) /\
  extends (clicks w) (clicks (after_all cs w)) /\
  List.length (links (after_all cs w)) <= List.length (links w) + List.length cs /\
  List.length (clicks (after_all cs w)) <= List.length (clicks w) + List.length cs.
Proof.
  revert w. induction cs as [|c cs IH]; intros w.
  - cbn [after_all fold_left List.length].
    repeat split; try apply extends_refl; lia.
  - cbn [after_all fold_left List.length].
    fold (after_all cs (after c w)).
    destruct (IH (after c w)) as (Hl & Hc & Hnl & Hnc).
    assert (Hl1 : extends (links w) (links (after c w)) /\
                  List.length (links (after c w)) <= S (List.length (links w))).
    { destruct (after_links c w) as [-> | (l & -> & _)].
      - split; [apply extends_refl | lia].
      - split; [exists [l]; reflexivity | rewrite length_app; cbn; lia]. }
    assert (Hc1 : extends (clicks w) (clicks (after c w)) /\
                  List.length (clicks (after c w)) <= S (List.length (clicks w))).
    { destruct (after_clicks c w) as [-> | (k & -> & _)].
      - split; [apply extends_refl | lia].
      - split; [exists [k]; reflexivity | rewrite length_app; cbn; lia]. }
    repeat split.
    + exact (extends_trans _ _ _ (proj1 Hl1) Hl).
    + exact (extends_trans _ _ _ (proj1 Hc1) Hc).
    + lia.
    + lia.
Qed.

(** X6. One row per URL: starting from empty tables, after any sequence
    of calls no two stored links share a [target_url], so a URL
    determines its stored link. *)
Theorem target_urls_unique (e : nat -> nat) (c : nat -> datetime)
        (z : datetime -> datetime) (cs : list call) :
  let w := after_all cs (fresh_world e c z) in
  NoDup (map Link.target_url (links w)) /\
  (forall l1 l2, In l1 (links w) -> In l2 (links w) ->
     Link.target_url l1 = Link.target_url l2 -> l1 = l2).
Proof.
  intros w.
  assert (H : forall cs0 w0, NoDup (map Link.target_url (links w0)) ->
                NoDup (map Link.target_url (links (after_all cs0 w0)))).
  { induction cs0 as [|c0 cs0 IH]; intros w0 Hnd; [exact Hnd|].
    cbn [after_all fold_left]. apply IH.
    destruct (after_links c0 w0) as [-> | (l & -> & _ & Hv)]; [exact Hnd|].
    apply NoDup_map_snoc; [exact Hnd | apply violates_unique_false_url; exact Hv]. }
  assert (Hnd : NoDup (map Link.target_url (links w))) by (apply H; constructor).
  split; [exact Hnd|].
  intros l1 l2 H1 H2 Heq.
  exact (NoDup_map_injective Link.target_url (links w) l1 l2 Hnd H1 H2 Heq).
Qed.

Lemma clicks_reference_links_after_all (cs : list call) (w : World) :
  clicks_reference_links w -> clicks_reference_links (after_all cs w).
Proof.
  revert w. induction cs as [|c0 cs0 IH]; intros w0 Hinv; [exact Hinv|].
  cbn [after_all fold_left]. apply IH. clear IH.
  assert (Hgrow : forall l, In l (links w0) -> In l (links (after c0 w0))).
  { intros l Hl. destruct (after_links c0 w0) as [-> | (l' & -> & _)];
      [exact Hl | apply in_or_app; left; exact Hl]. }
  intros k Hk.
  destruct (after_clicks c0 w0) as [Heq | (k' & Heq & Href)];
    rewrite Heq in Hk.
  - destruct (Hinv k Hk) as (l & Hl & Hid). exists l. split; [auto | exact Hid].
  - apply in_app_or in Hk. destruct Hk as [Hk | [<- | []]].
    + destruct (Hinv k Hk) as (l & Hl & Hid). exists l. split; [auto | exact Hid].
    + unfold references_link in Href. apply existsb_exists in Href.
      destruct Href as (l & Hl & Hid). apply N.eqb_eq in Hid.
      exists l. split; [auto | exact Hid].
Qed.

(** X7. Referential integrity: starting from empty tables, after any
    sequence of calls every stored click refers to a stored link. *)
Theorem clicks_always_reference_links (e : nat -> nat) (c : nat -> datetime)
        (z : datetime -> datetime) (cs : list call) :
  clicks_reference_links (after_all cs (fresh_world e c z)).
Proof.
  apply clicks_reference_links_after_all. intros k [].
Qed.

(** X8. Reading never writes: [get_stats] returns the world it was given,
    whether it returns a result or raises, and so does
    [get_link_by_short_code]; asking again gives the same answer. *)
Theorem reads_leave_world_unchanged (w : World) (page limit : option Z)
        (short_code : string) :
  snd (get_stats page limit w) = w /\
  get_stats page limit (snd (get_stats page limit w)) = get_stats page limit w /\
  snd (get_link_by_short_code short_code w) = w.
Proof.
  assert (H : snd (get_stats page limit w) = w).
  { rewrite get_stats_unfold. cbv zeta.
    match goal with |- snd (if ?b then _ else _) = _ => destruct b end;
      reflexivity. }
  split; [exact H|]. split; [rewrite H; reflexivity | reflexivity].
Qed.

(* ================================================================== *)
(** * Composition: create, look up, redirect; the HTTP handlers *)
(* ================================================================== *)

(** The two ways [create_link] returns. *)
Lemma create_link_cases (url : string) (w w1 : World) (l : Link.t) (b : bool) :
  create_link url w = (Ok (l, b), w1) ->
  Link.target_url l = url /\
  In l (links w1) /\
  create_link url w1 = (Ok (l, false), w1) /\
  ((b = false /\ w1 = w /\ url_stored url w) \/
   (b = true /\ ~ url_stored url w /\ links w1 = links w ++ [l] /\
    violates_unique l (links w) = false)).
Proof.
  unfold create_link, bind, query_link_first, ret.
  destruct (find (fun l0 => (Link.target_url l0 =? url)%string) (links w))
    as [existing|] eqn:Hfind.
  - intros H. inversion H; subst. rewrite Hfind.
    apply find_some in Hfind. destruct Hfind as [Hin Heq].
    apply String.eqb_eq in Heq.
    repeat split; try assumption.
    left. repeat split. exists l. split; assumption.
  - intros H. apply create_link_attempts_ok in H.
    destruct H as (-> & Hl & _ & Hu & _ & Hv).
    assert (Hin : In l (links w1))
      by (rewrite Hl; apply in_or_app; right; left; reflexivity).
    repeat split; try assumption.
    + rewrite Hl, (find_app_new _ _ l Hfind); [reflexivity|].
      rewrite Hu. apply String.eqb_refl.
    + right. repeat split; try assumption.
      intros (l0 & Hin0 & Hurl).
      pose proof (find_none _ _ Hfind l0 Hin0) as Hno. cbn in Hno.
      rewrite Hurl, String.eqb_refl in Hno. discriminate.
Qed.

(** X9. Create, then follow: in a store whose short codes are pairwise
    distinct, the link [create_link] returns is the one its short code
    looks up afterwards, and a redirect request for that code records one
    click for it and answers with status 302 and a [Location] header that
    is the submitted URL percent-encoded by [quote]: the submitted URL
    itself whenever it consists of ASCII letters, digits, [_.-~] and the
    safe characters [:/%#?=@[]!$&'()*+,;]. *)
Theorem create_then_redirect (target_url : string) (w w1 : World)
        (l : Link.t) (is_new : bool) :
  NoDup (map Link.short_code (links w)) ->
  create_link target_url w = (Ok (l, is_new), w1) ->
  get_link_by_short_code (Link.short_code l) w1 = (Ok (Some l), w1) /\
  (exists r,
     redirect_short_link (Link.short_code l) w1
     = (Ok r,
        set_clicks (clicks w1 ++ [next_click (Link.id l) w1]) (tick_world w1)) /\
     status_code r = 302%Z /\
     location r = quote target_url redirect_safe /\
     (quote_keeps redirect_safe target_url = true -> location r = target_url)) /\
  Click.link_id (next_click (Link.id l) w1) = Link.id l.
Proof.
  intros Hnd H.
  destruct (create_link_cases _ _ _ _ _ H) as (Hu & Hin & _ & Hcase).
  assert (Hnd1 : NoDup (map Link.short_code (links w1))).
  { destruct Hcase as [(_ & -> & _) | (_ & _ & -> & Hv)]; [exact Hnd|].
    apply NoDup_map_snoc; [exact Hnd | apply violates_unique_false_code; exact Hv]. }
  assert (Hfind : find (fun x => (Link.short_code x =? Link.short_code l)%string)
                       (links w1) = Some l)
    by (apply (find_by_unique_key Link.short_code); assumption).
  split; [|split; [|reflexivity]].
  - unfold get_link_by_short_code, query_link_first. rewrite Hfind. reflexivity.
  - exists (RedirectResponse target_url 302).
    split; [|split; [reflexivity | split; [reflexivity|]]].
    + rewrite redirect_step, Hfind, (references_stored_link l w1 Hin), Hu.
      reflexivity.
    + intros Hsafe. cbn [RedirectResponse location].
      apply quote_keeps_unchanged. exact Hsafe.
Qed.

Lemma create_then_redirect_witness :
  NoDup (map Link.short_code (links empty_world)) /\
  create_link "https://fiverr.com/jane/web-design" empty_world
  = (Ok (first_link, true), one_link_world) /\
  create_link "https://fiverr.com/a b" empty_world
  = (Ok (spaced_link, true), spaced_world) /\
  (exists r,
     redirect_short_link "ahov29" one_link_world
     = (Ok r, set_clicks [Click.mk 1%N 0%N noon] (tick_world one_link_world)) /\
     status_code r = 302%Z /\
     location r = "https://fiverr.com/jane/web-design") /\
  (exists r,
     redirect_short_link "ahov29" spaced_world
     = (Ok r, set_clicks [Click.mk 1%N 0%N noon] (tick_world spaced_world)) /\
     status_code r = 302%Z /\
     location r = "https://fiverr.com/a%20b").
Proof.
  assert (Hnd : NoDup (map Link.short_code (links empty_world))) by constructor.
  assert (H : create_link "https://fiverr.com/jane/web-design" empty_world
              = (Ok (first_link, true), one_link_world)) by reflexivity.
  assert (H' : create_link "https://fiverr.com/a b" empty_world
               = (Ok (spaced_link, true), spaced_world)) by reflexivity.
  split; [exact Hnd|]. split; [exact H|]. split; [exact H'|]. split.
  - destruct (create_then_redirect _ _ _ _ _ Hnd H)
      as (_ & (r & Hr & Hs & _ & Hloc) & _).
    exists r. split; [exact Hr|]. split; [exact Hs|]. apply Hloc. reflexivity.
  - destruct (create_then_redirect _ _ _ _ _ Hnd H')
      as (_ & (r & Hr & Hs & Hloc & _) & _).
    exists r. split; [exact Hr|]. split; [exact Hs|].
    rewrite Hloc. reflexivity.
Defined.

(** X10. The reply of [POST /links]: whenever [post_link] replies, the
    payload carries the submitted URL and the code and creation time of
    the stored row for it; [short_url] is the base URL without its
    trailing slashes, one slash, and the code; the status is 201 when
    the URL had no row before and 200 when it had (and then nothing is
    written); and posting the same URL again replies 200 with the very
    same payload and writes nothing. *)
Theorem post_link_reply (target_url base_url : string) (w w1 : World)
        (response : LinkResponse.t) (status : Z) :
  post_link target_url base_url w = (Ok (response, status), w1) ->
  LinkResponse.target_url response = target_url /\
  (exists l, In l (links w1) /\
             Link.target_url l = target_url /\
             Link.short_code l = LinkResponse.short_code response /\
             Link.created_at l = LinkResponse.created_at response) /\
  LinkResponse.short_url response
  = (rstrip (Ascii.eqb "/") base_url ++ "/"
     ++ LinkResponse.short_code response)%string /\
  (exists slashes,
     base_url = (rstrip (Ascii.eqb "/") base_url ++ slashes)%string /\
     all_chars (Ascii.eqb "/") slashes = true) /\
  ((status = 201%Z /\ ~ url_stored target_url w) \/
   (status = 200%Z /\ url_stored target_url w /\ w1 = w)) /\
  post_link target_url base_url w1 = (Ok (response, 200%Z), w1).
Proof.
  unfold post_link, bind.
  destruct (create_link target_url w) as [[[l b]|e] w'] eqn:Hc; [|discriminate].
  intros H.
  destruct (create_link_cases _ _ _ _ _ Hc) as (Hu & Hin & Hagain & Hcase).
  assert (Hr : response
               = LinkResponse.mk (Link.short_code l)
                   (rstrip (Ascii.eqb "/") base_url ++ "/" ++ Link.short_code l)%string
                   (Link.target_url l) (Link.created_at l) /\
               status = (if b then 201%Z else 200%Z) /\ w1 = w').
  { destruct b; unfold ret in H; inversion H; repeat split. }
  destruct Hr as (-> & -> & ->).
  cbn [LinkResponse.target_url LinkResponse.short_code LinkResponse.short_url
       LinkResponse.created_at].
  repeat split.
  - exact Hu.
  - exists l. repeat split; assumption.
  - apply rstrip_split.
  - destruct Hcase as [(-> & -> & Hs) | (-> & Hs & _)].
    + right. repeat split. exact Hs.
    + left. split; [reflexivity | exact Hs].
  - rewrite Hagain. reflexivity.
Qed.

Lemma post_link_reply_witness :
  post_link "https://fiverr.com/jane/web-design" "http://testserver/" empty_world
  = (Ok (LinkResponse.mk "ahov29" "http://testserver/ahov29"
           "https://fiverr.com/jane/web-design" noon, 201%Z), one_link_world) /\
  post_link "https://fiverr.com/jane/web-design" "http://testserver/" one_link_world
  = (Ok (LinkResponse.mk "ahov29" "http://testserver/ahov29"
           "https://fiverr.com/jane/web-design" noon, 200%Z), one_link_world).
Proof.
  assert (H : post_link "https://fiverr.com/jane/web-design" "http://testserver/"
                empty_world
              = (Ok (LinkResponse.mk "ahov29" "http://testserver/ahov29"
                       "https://fiverr.com/jane/web-design" noon, 201%Z),
                 one_link_world)) by reflexivity.
  split; [exact H|].
  exact (proj2 (proj2 (proj2 (proj2 (proj2 (post_link_reply _ _ _ _ _ _ H)))))).
Defined.

(** X11. [GET /stats] behind its parameter checks: for [page >= 1] and
    [1 <= limit <= 100] (omitted parameters count as 1 and 20) whose
    offset [(page - 1) * limit] fits a [bigint], the handler replies with
    exactly the requested [page] and [limit], the number of stored links,
    and at most [limit] entries, so the clamps of [get_stats] never change
    a value that passed the checks.  The checks put no upper bound on
    [page]: a checked request whose offset exceeds the largest [bigint]
    raises [DataError].  Any value outside the checks is answered 422.
    The world is unchanged in all three cases. *)
Theorem get_global_stats_validated (page limit : option Z) (w : World) :
  let p := arg 1%Z page in
  let l := arg 20%Z limit in
  ((1 <= p)%Z /\ (1 <= l <= 100)%Z /\ ((p - 1) * l <= bigint_max)%Z ->
   exists stats,
     get_global_stats page limit w = (Ok (StatsOk stats), w) /\
     Stats.page stats = p /\
     Stats.limit stats = l /\
     Stats.total_links stats = List.length (links w) /\
     List.length (Stats.links stats) <= Z.to_nat l) /\
  ((1 <= p)%Z /\ (1 <= l <= 100)%Z /\ (bigint_max < (p - 1) * l)%Z ->
   get_global_stats page limit w = (Raise DataError, w)) /\
  ((p < 1)%Z \/ (l < 1)%Z \/ (100 < l)%Z ->
   get_global_stats page limit w = (Ok Unprocessable, w)).
Proof.
  intros p l. unfold get_global_stats. fold p l.
  assert (Hchecked : (1 <= p)%Z -> (1 <= l <= 100)%Z ->
                     page_query_ok p && limit_query_ok l = true).
  { intros Hp Hl. unfold page_query_ok, limit_query_ok.
    apply andb_true_intro. split; [apply Z.leb_le; lia|].
    apply andb_true_intro. split; apply Z.leb_le; lia. }
  split; [|split].
  - intros (Hp & Hl & Ho). rewrite (Hchecked Hp Hl). unfold bind.
    rewrite get_stats_ok;
      [| lia | replace (Z.max 1 p) with p by lia;
               replace (Z.min 100 l) with l by lia; exact Ho].
    eexists. split; [reflexivity|].
    cbn [Stats.page Stats.limit Stats.total_links Stats.links].
    repeat split; try lia.
    rewrite length_map, page_window_length.
    replace (Z.min 100 l) with l by lia. apply Nat.le_min_l.
  - intros (Hp & Hl & Ho). rewrite (Hchecked Hp Hl). unfold bind.
    rewrite get_stats_unfold. cbn [arg]. cbv zeta.
    rewrite clamp_page_max, clamp_limit_min.
    replace (Z.max 1 p) with p by lia.
    replace (Z.min 100 l) with l by lia.
    assert (Hr : window_refused ((p - 1) * l) l = true).
    { unfold window_refused. apply orb_true_iff. left.
      apply orb_true_iff. right. apply Z.ltb_lt. exact Ho. }
    rewrite Hr. reflexivity.
  - intros Hbad.
    assert (Hno : page_query_ok p && limit_query_ok l = false).
    { unfold page_query_ok, limit_query_ok.
      destruct (Z.leb_spec 1 p); cbn [andb]; [|reflexivity].
      destruct (Z.leb_spec 1 l); cbn [andb]; [|reflexivity].
      destruct (Z.leb_spec l 100); [lia | reflexivity]. }
    rewrite Hno. reflexivity.
Qed.

Lemma get_global_stats_validated_witness :
  ((1 <= 3)%Z /\ (1 <= 2 <= 100)%Z /\ ((3 - 1) * 2 <= bigint_max)%Z) /\
  (exists stats,
     get_global_stats (Some 3%Z) (Some 2%Z) five_links_world
     = (Ok (StatsOk stats), five_links_world) /\
     Stats.page stats = 3%Z /\ Stats.limit stats = 2%Z) /\
  ((1 <= 9223372036854775809)%Z /\ (1 <= 1 <= 100)%Z /\
   (bigint_max < (9223372036854775809 - 1) * 1)%Z) /\
  get_global_stats (Some 9223372036854775809%Z) (Some 1%Z) five_links_world
  = (Raise DataError, five_links_world).
Proof.
  assert (H : (1 <= 3)%Z /\ (1 <= 2 <= 100)%Z /\ ((3 - 1) * 2 <= bigint_max)%Z)
    by (unfold bigint_max; lia).
  assert (Hbig : (1 <= 9223372036854775809)%Z /\ (1 <= 1 <= 100)%Z /\
                 (bigint_max < (9223372036854775809 - 1) * 1)%Z)
    by (unfold bigint_max; lia).
  split; [exact H|].
  destruct (get_global_stats_validated (Some 3%Z) (Some 2%Z) five_links_world)
    as (Hok & _ & _).
  destruct (Hok H) as (stats & Hs & Hp & Hl & _).
  split; [exists stats; split; [exact Hs|]; split; [exact Hp | exact Hl]|].
  split; [exact Hbig|].
  exact (proj1 (proj2 (get_global_stats_validated
                         (Some 9223372036854775809%Z) (Some 1%Z)
                         five_links_world)) Hbig).
Defined.

(* ================================================================== *)
(** * Walking the pages *)
(* ================================================================== *)

Lemma firstn_add {A} (a b : nat) (xs : list A) :
  firstn (a + b) xs = firstn a xs ++ firstn b (skipn a xs).
Proof.
  revert xs. induction a as [|a IH]; intros xs; [reflexivity|].
  destruct xs as [|x xs]; cbn [Nat.add firstn skipn app].
  - rewrite firstn_nil. reflexivity.
  - rewrite IH. reflexivity.
Qed.

Lemma stats_links_window (page limit : Z) (w : World) :
  (0 <= limit <= 100)%Z -> (1 <= page)%Z ->
  ((page - 1) * limit <= bigint_max)%Z ->
  stats_links page limit w
  = map (stats_of w) (page_window page limit (links w)).
Proof.
  intros Hl Hp Ho. unfold stats_links.
  rewrite get_stats_ok;
    [| lia | replace (Z.max 1 page) with page by lia;
             replace (Z.min 100 limit) with limit by lia; exact Ho].
  cbn [fst Stats.links].
  replace (Z.max 1 page) with page by lia.
  replace (Z.min 100 limit) with limit by lia. reflexivity.
Qed.

Lemma all_pages_firstn (n : nat) (limit : Z) (w : World) :
  (0 <= limit <= 100)%Z ->
  ((Z.of_nat n - 1) * limit <= bigint_max)%Z ->
  all_pages n limit w
  = map (stats_of w)
        (firstn (n * Z.to_nat limit) (order_by_created_at_desc (links w))).
Proof.
  intros Hl. induction n as [|n IH]; intros Ho; [reflexivity|].
  cbn [all_pages].
  rewrite IH by (unfold bigint_max in *; nia).
  rewrite stats_links_window; [| lia | lia | exact Ho].
  rewrite <- map_app. f_equal. unfold page_window.
  replace (Z.to_nat ((Z.of_nat (S n) - 1) * limit)) with (n * Z.to_nat limit)
    by nia.
  replace (S n * Z.to_nat limit) with (n * Z.to_nat limit + Z.to_nat limit)
    by lia.
  symmetry. apply firstn_add.
Qed.

(** X12. Walking the pages: with a fixed [1 <= limit <= 100], once
    [n * limit] reaches the number of links (and the offset of page [n]
    fits a [bigint]) the entries of pages 1, 2, ..., [n] taken in order
    are the entries of all stored links, each exactly once, in descending
    order of [created_at] (no link is followed by one created later); and
    every later page whose offset still fits a [bigint] is empty while
    reporting the full [total_links]. *)
Theorem pages_cover_all_links (n : nat) (limit : Z) (w : World) :
  (1 <= limit <= 100)%Z ->
  ((Z.of_nat n - 1) * limit <= bigint_max)%Z ->
  List.length (links w) <= n * Z.to_nat limit ->
  (exists ordered,
     Permutation ordered (links w) /\
     Sorted not_older ordered /\
     all_pages n limit w = map (stats_of w) ordered) /\
  Permutation (all_pages n limit w) (map (stats_of w) (links w)) /\
  (forall page, (Z.of_nat n < page)%Z ->
     ((page - 1) * limit <= bigint_max)%Z ->
     get_stats (Some page) (Some limit) w
     = (Ok (Stats.mk page limit (List.length (links w)) []), w)).
Proof.
  intros Hl Hfit Hn.
  assert (Hall : all_pages n limit w
                 = map (stats_of w) (order_by_created_at_desc (links w))).
  { rewrite all_pages_firstn by (lia || exact Hfit). f_equal. apply firstn_all2.
    rewrite (Permutation_length (order_by_created_at_desc_perm (links w))).
    exact Hn. }
  split; [|split].
  - exists (order_by_created_at_desc (links w)).
    split; [apply order_by_created_at_desc_perm|].
    split; [apply order_by_created_at_desc_descending | exact Hall].
  - rewrite Hall. apply Permutation_map. apply order_by_created_at_desc_perm.
  - intros page Hp Ho.
    rewrite get_stats_ok;
      [| lia | replace (Z.max 1 page) with page by lia;
               replace (Z.min 100 limit) with limit by lia; exact Ho].
    replace (Z.max 1 page) with page by lia.
    replace (Z.min 100 limit) with limit by lia.
    assert (He : page_window page limit (links w) = []).
    { apply length_zero_iff_nil. rewrite page_window_length.
      assert (List.length (links w) <= Z.to_nat ((page - 1) * limit)) by nia.
      lia. }
    rewrite He. reflexivity.
Qed.

Lemma pages_cover_all_links_witness :
  (1 <= 2 <= 100)%Z /\
  ((Z.of_nat 3 - 1) * 2 <= bigint_max)%Z /\
  List.length (links five_links_world) <= 3 * Z.to_nat 2 /\
  map LinkStats.target_url (all_pages 3 2 five_links_world)
  = ["https://fiverr.com/p4/svc"; "https://fiverr.com/p3/svc";
     "https://fiverr.com/p2/svc"; "https://fiverr.com/p1/svc";
     "https://fiverr.com/p0/svc"] /\
  List.length (all_pages 3 2 five_links_world) = 5 /\
  get_stats (Some 4%Z) (Some 2%Z) five_links_world
  = (Ok (Stats.mk 4 2 5 []), five_links_world).
Proof.
  assert (Hl : (1 <= 2 <= 100)%Z) by lia.
  assert (Hn : List.length (links five_links_world) <= 3 * Z.to_nat 2)
    by (vm_compute; repeat constructor).
  assert (Hfit : ((Z.of_nat 3 - 1) * 2 <= bigint_max)%Z)
    by (vm_compute; discriminate).
  split; [exact Hl|]. split; [exact Hfit|]. split; [exact Hn|].
  destruct (pages_cover_all_links 3 2 five_links_world Hl Hfit Hn)
    as (_ & Hperm & Hlate).
  split; [vm_compute; reflexivity|]. split.
  - rewrite (Permutation_length Hperm), length_map. reflexivity.
  - apply (Hlate 4%Z); [reflexivity | vm_compute; discriminate].
Defined.

(* ================================================================== *)
(** * Month strings and the calendar *)
(* ================================================================== *)

Lemma string_compare_refl (s : string) : String.compare s s = Eq.
Proof.
  pose proof (String.compare_antisym s s) as H.
  destruct (String.compare s s); [reflexivity | discriminate | discriminate].
Qed.

Lemma string_compare_app (a b s t : string) :
  String.length a = String.length b ->
  String.compare (a ++ s) (b ++ t)
  = lex (String.compare a b) (String.compare s t).
Proof.
  revert b. induction a as [|x a IH]; intros [|y b] Hlen;
    try discriminate; [reflexivity|].
  cbn [String.append String.compare].
  destruct (Ascii.compare x y); [|reflexivity|reflexivity].
  apply IH. cbn [String.length] in Hlen. lia.
Qed.

(** A formatter that grows at every step grows over any distance. *)
Lemma monotone_from_steps (f : Z -> string) (lo hi : Z) :
  (forall y, (lo <= y < hi)%Z -> string_lt (f y) (f (y + 1)%Z)) ->
  forall a b, (lo <= a)%Z -> (a < b)%Z -> (b <= hi)%Z -> string_lt (f a) (f b).
Proof.
  intros Hstep a b Ha Hab Hb.
  assert (H : forall d, (lo <= a)%Z -> (a + 1 + Z.of_nat d <= hi)%Z ->
                        string_lt (f a) (f (a + 1 + Z.of_nat d)%Z)).
  { induction d as [|d IH]; intros H1 H2.
    - replace (a + 1 + Z.of_nat 0)%Z with (a + 1)%Z by lia.
      apply Hstep. lia.
    - apply (string_lt_trans _ (f (a + 1 + Z.of_nat d)%Z)).
      + apply IH; lia.
      + replace (a + 1 + Z.of_nat (S d))%Z
          with ((a + 1 + Z.of_nat d) + 1)%Z by lia.
        apply Hstep. lia. }
  replace b with (a + 1 + Z.of_nat (Z.to_nat (b - a - 1)))%Z by lia.
  apply H; lia.
Qed.

Lemma steps_increase_spec (f : Z -> string) (n : nat) (lo : Z) :
  steps_increase f n lo = true ->
  forall y, (lo <= y < lo + Z.of_nat n)%Z -> string_lt (f y) (f (y + 1)%Z).
Proof.
  revert lo. induction n as [|n IH]; intros lo H y Hy; [lia|].
  cbn [steps_increase] in H. apply andb_prop in H. destruct H as [H0 Hrest].
  destruct (Z.eq_dec y lo) as [-> | Hne].
  - unfold string_ltb in H0. unfold string_lt.
    destruct (String.compare (f lo) (f (lo + 1)%Z));
      [discriminate | reflexivity | discriminate].
  - apply (IH (lo + 1)%Z Hrest). lia.
Qed.

Lemma format_year_step (y : Z) :
  (MINYEAR <= y < MAXYEAR)%Z ->
  string_lt (format_0d 4 y) (format_0d 4 (y + 1)).
Proof.
  intros Hy. unfold MINYEAR, MAXYEAR in Hy.
  assert (Hall : steps_increase (format_0d 4) (Z.to_nat 9998) 1 = true)
    by (vm_compute; reflexivity).
  apply (steps_increase_spec _ _ _ Hall). lia.
Qed.

Lemma format_month_step (m : Z) :
  (1 <= m < 12)%Z -> string_lt (format_0d 2 m) (format_0d 2 (m + 1)).
Proof.
  intros Hm.
  assert (Hc : (m = 1 \/ m = 2 \/ m = 3 \/ m = 4 \/ m = 5 \/ m = 6 \/ m = 7 \/
                m = 8 \/ m = 9 \/ m = 10 \/ m = 11)%Z) by lia.
  repeat (destruct Hc as [-> | Hc]; [reflexivity|]). subst. reflexivity.
Qed.

Lemma four_digits_length (s : string) :
  four_digits s = true -> String.length s = 4.
Proof.
  destruct s as [|a [|b [|c [|d [|? ?]]]]]; try discriminate. reflexivity.
Qed.

Lemma to_char_YYYY_MM_compare (a b : datetime) :
  valid_datetime a = true -> valid_datetime b = true ->
  String.compare (to_char_YYYY_MM a) (to_char_YYYY_MM b)
  = lex (String.compare (format_0d 4 (year a)) (format_0d 4 (year b)))
        (String.compare (format_0d 2 (month a)) (format_0d 2 (month b))).
Proof.
  unfold valid_datetime. intros Ha Hb.
  repeat (apply andb_prop in Ha; destruct Ha as [Ha ?]).
  repeat (apply andb_prop in Hb; destruct Hb as [Hb ?]).
  unfold to_char_YYYY_MM. rewrite string_compare_app.
  - rewrite (string_compare_app "-" "-") by reflexivity. reflexivity.
  - rewrite !four_digits_length; [reflexivity | |];
      apply format_year_digits; lia.
Qed.

Lemma valid_datetime_bounds (d : datetime) :
  valid_datetime d = true ->
  (MINYEAR <= year d <= MAXYEAR)%Z /\ (1 <= month d <= 12)%Z.
Proof.
  unfold valid_datetime. intros H.
  repeat (apply andb_prop in H; destruct H as [H ?]). lia.
Qed.

Lemma month_before_string_lt (a b : datetime) :
  valid_datetime a = true -> valid_datetime b = true ->
  month_before a b -> string_lt (to_char_YYYY_MM a) (to_char_YYYY_MM b).
Proof.
  intros Ha Hb Hlt. unfold string_lt.
  rewrite (to_char_YYYY_MM_compare a b Ha Hb).
  destruct (valid_datetime_bounds a Ha) as [Hya Hma].
  destruct (valid_datetime_bounds b Hb) as [Hyb Hmb].
  destruct Hlt as [Hy | [Hy Hm]].
  - rewrite (monotone_from_steps (format_0d 4) MINYEAR MAXYEAR format_year_step
               (year a) (year b)) by lia.
    reflexivity.
  - rewrite Hy, string_compare_refl. cbn [lex].
    apply (monotone_from_steps (format_0d 2) 1 12 format_month_step); lia.
Qed.

(** X13. Month strings sort like the calendar: for valid timestamps the
    string [to_char(a, 'YYYY-MM')] is below [to_char(b, 'YYYY-MM')] in
    string order exactly when the month of [a] is earlier than the month
    of [b], and the two strings are equal exactly when year and month
    agree; so the [ORDER BY month] of the breakdown is chronological and
    each group is one calendar month. *)
Theorem month_strings_chronological (a b : datetime) :
  valid_datetime a = true -> valid_datetime b = true ->
  (string_lt (to_char_YYYY_MM a) (to_char_YYYY_MM b) <-> month_before a b) /\
  (to_char_YYYY_MM a = to_char_YYYY_MM b <->
   year a = year b /\ month a = month b).
Proof.
  intros Ha Hb.
  assert (Hcases : month_before a b \/
                   (year a = year b /\ month a = month b) \/
                   month_before b a)
    by (unfold month_before; lia).
  assert (Heq : year a = year b /\ month a = month b ->
                to_char_YYYY_MM a = to_char_YYYY_MM b)
    by (intros [Hy Hm]; unfold to_char_YYYY_MM; rewrite Hy, Hm; reflexivity).
  split; split.
  - intros Hlt. destruct Hcases as [H | [H | H]]; [exact H | |].
    + apply string_lt_neq in Hlt. exfalso. apply Hlt. apply Heq. exact H.
    + pose proof (month_before_string_lt b a Hb Ha H) as Hrev.
      unfold string_lt in *. rewrite String.compare_antisym, Hrev in Hlt.
      discriminate.
  - apply month_before_string_lt; assumption.
  - intros Hs. destruct Hcases as [H | [H | H]]; [| exact H |].
    + apply (month_before_string_lt a b Ha Hb) in H.
      apply string_lt_neq in H. contradiction.
    + apply (month_before_string_lt b a Hb Ha) in H.
      apply string_lt_neq in H. symmetry in Hs. contradiction.
  - exact Heq.
Qed.

Lemma month_strings_chronological_witness :
  valid_datetime (mk_datetime 2023 12 31 23 59 59 999999) = true /\
  valid_datetime (mk_datetime 2024 1 1 0 0 0 0) = true /\
  string_lt "2023-12" "2024-01".
Proof.
  split; [reflexivity|]. split; [reflexivity|].
  apply (proj2 (proj1 (month_strings_chronological
                         (mk_datetime 2023 12 31 23 59 59 999999)
                         (mk_datetime 2024 1 1 0 0 0 0) eq_refl eq_refl))).
  left. reflexivity.
Defined.

(** X14. The [to_char] registered for the SQLite test database agrees
    with [to_char(ts, 'YYYY-MM')]: applied to a stored text that starts
    with the zero-padded year, a dash and the zero-padded month of a valid
    timestamp, whatever follows and whatever the format argument, it
    returns that month string; on a missing or empty text it returns
    nothing. *)
Theorem sqlite_to_char_agrees (d : datetime) (rest fmt : string) :
  valid_datetime d = true ->
  sqlite_to_char (Some (to_char_YYYY_MM d ++ rest)%string) fmt
  = Some (to_char_YYYY_MM d) /\
  sqlite_to_char None fmt = None /\
  sqlite_to_char (Some "") fmt = None.
Proof.
  intros Hd. split; [|split; reflexivity].
  pose proof (to_char_YYYY_MM_format d Hd) as Hm.
  destruct (to_char_YYYY_MM d) as [|a [|b [|c [|e [|f [|g [|h [|? ?]]]]]]]];
    try discriminate.
  cbn [String.append sqlite_to_char substring]. destruct rest; reflexivity.
Qed.

Lemma sqlite_to_char_agrees_witness :
  valid_datetime noon = true /\
  sqlite_to_char (Some "2024-05-17 12:00:00.000000") "YYYY-MM" = Some "2024-05".
Proof.
  split; [reflexivity|].
  exact (proj1 (sqlite_to_char_agrees noon "-17 12:00:00.000000" "YYYY-MM" eq_refl)).
Defined.

Lemma earnings_nearest_cent_witness :
  7 <= 2000 /\
  round (float_mul (float_of_int 7) EARNINGS_PER_CLICK) 2
  = float_of_decimal false 35 2.
Proof.
  split; [lia|]. apply (earnings_nearest_cent 7). lia.
Defined.

(* ================================================================== *)
(** * Every click is counted once *)
(* ================================================================== *)

Lemma create_link_attempts_ids (n : nat) (url : string) (w : World) :
  (uuid_next w <= uuid_next (snd (create_link_attempts n url w)))%N /\
  (links (snd (create_link_attempts n url w)) = links w \/
   exists l, links (snd (create_link_attempts n url w)) = links w ++ [l] /\
             (uuid_next w <= Link.id l)%N /\
             (Link.id l < uuid_next (snd (create_link_attempts n url w)))%N).
Proof.
  revert w. induction n as [|n IH]; intros w.
  - cbn. split; [lia | left; reflexivity].
  - rewrite create_link_attempts_step.
    destruct (violates_unique (attempt_link url w) (links w)).
    + destruct (IH (attempt_world w)) as [Hle Hl].
      change (uuid_next (attempt_world w)) with (N.succ (uuid_next w)) in *.
      change (links (attempt_world w)) with (links w) in *.
      split; [lia|].
      destruct Hl as [Hl | (l & Hl & H1 & H2)]; [left; exact Hl|].
      right. exists l. repeat split; [exact Hl | lia | exact H2].
    + cbn [snd set_links attempt_world links uuid_next]. split; [lia|].
      right. exists (attempt_link url w).
      repeat split; cbn [attempt_link Link.id]; lia.
Qed.

Lemma after_ids (c : call) (w : World) :
  (uuid_next w <= uuid_next (after c w))%N /\
  (links (after c w) = links w \/
   exists l, links (after c w) = links w ++ [l] /\
             (uuid_next w <= Link.id l)%N /\
             (Link.id l < uuid_next (after c w))%N).
Proof.
  destruct c as [u | i | p l | s]; cbn [after].
  - unfold create_link, bind, query_link_first.
    destruct (find _ (links w)).
    + cbn. split; [lia | left; reflexivity].
    + apply create_link_attempts_ids.
  - rewrite record_click_step.
    destruct (references_link (next_click i w) (links w));
      cbn; (split; [lia | left; reflexivity]).
  - rewrite get_stats_world. split; [lia | left; reflexivity].
  - rewrite redirect_step.
    destruct (find (fun l => (Link.short_code l =? s)%string) (links w)) as [l|].
    + destruct (references_link (next_click (Link.id l) w) (links w));
        cbn; (split; [lia | left; reflexivity]).
    + cbn. split; [lia | left; reflexivity].
Qed.

Lemma link_ids_ok_after_all (cs : list call) (w : World) :
  link_ids_ok w -> link_ids_ok (after_all cs w).
Proof.
  revert w. induction cs as [|c cs IH]; intros w Hinv; [exact Hinv|].
  cbn [after_all fold_left]. apply IH. clear IH.
  destruct Hinv as [Hnd Hlt]. unfold link_ids_ok.
  destruct (after_ids c w) as [Hle [Hl | (l & Hl & H1 & H2)]]; rewrite Hl.
  - split; [exact Hnd|]. intros x Hx. specialize (Hlt x Hx). lia.
  - split.
    + apply NoDup_map_snoc; [exact Hnd|].
      intros Hin. apply in_map_iff in Hin. destruct Hin as (x & Hid & Hx).
      specialize (Hlt x Hx). lia.
    + intros x Hx. apply in_app_or in Hx. destruct Hx as [Hx | [<- | []]].
      * specialize (Hlt x Hx). lia.
      * exact H2.
Qed.

Lemma clicks_per_link_step (cs : list Click.t) (x : Link.t) (ls : list Link.t) :
  clicks_per_link cs (x :: ls)
  = List.length (clicks_of (Link.id x) cs) + clicks_per_link cs ls.
Proof. reflexivity. Qed.

Lemma clicks_of_one (k : Click.t) (id : UUID) :
  List.length (clicks_of id [k]) = if (Click.link_id k =? id)%N then 1 else 0.
Proof.
  unfold clicks_of. cbn [filter].
  destruct (Click.link_id k =? id)%N; reflexivity.
Qed.

Lemma not_counted (k : Click.t) (ls : list Link.t) :
  ~ In (Click.link_id k) (map Link.id ls) -> clicks_per_link [k] ls = 0.
Proof.
  induction ls as [|y ls IH]; intros Hnotin; [reflexivity|].
  rewrite clicks_per_link_step, clicks_of_one.
  destruct (N.eqb_spec (Click.link_id k) (Link.id y)) as [Hy | _].
  - exfalso. apply Hnotin. left. symmetry. exact Hy.
  - rewrite IH; [reflexivity|]. intros H. apply Hnotin. right. exact H.
Qed.

(** A click whose link is stored under a unique id is counted once. *)
Lemma counted_once (k : Click.t) (ls : list Link.t) :
  NoDup (map Link.id ls) ->
  (exists l, In l ls /\ Link.id l = Click.link_id k) ->
  clicks_per_link [k] ls = 1.
Proof.
  induction ls as [|x ls IH]; intros Hnd (l & Hin & Hid); [destruct Hin|].
  inversion Hnd as [|? ? Hnotin Hnd']; subst.
  rewrite clicks_per_link_step, clicks_of_one.
  destruct (N.eqb_spec (Click.link_id k) (Link.id x)) as [Heq | Hne].
  - rewrite not_counted; [reflexivity|]. rewrite Heq. exact Hnotin.
  - destruct Hin as [-> | Hin]; [congruence|].
    rewrite IH; [reflexivity | exact Hnd' | exists l; split; assumption].
Qed.

Lemma clicks_per_link_cons (k : Click.t) (cs : list Click.t) (ls : list Link.t) :
  clicks_per_link (k :: cs) ls = clicks_per_link [k] ls + clicks_per_link cs ls.
Proof.
  induction ls as [|x ls IH]; [reflexivity|].
  rewrite !clicks_per_link_step, IH, clicks_of_one.
  unfold clicks_of. cbn [filter].
  destruct (Click.link_id k =? Link.id x)%N; cbn [List.length]; lia.
Qed.

Lemma clicks_per_link_nil (ls : list Link.t) : clicks_per_link [] ls = 0.
Proof.
  induction ls as [|x ls IH]; [reflexivity|].
  rewrite clicks_per_link_step, IH. reflexivity.
Qed.

Lemma clicks_per_link_total (cs : list Click.t) (ls : list Link.t) :
  NoDup (map Link.id ls) ->
  (forall k, In k cs -> exists l, In l ls /\ Link.id l = Click.link_id k) ->
  clicks_per_link cs ls = List.length cs.
Proof.
  intros Hnd. induction cs as [|k cs IH]; intros Href.
  - apply clicks_per_link_nil.
  - rewrite clicks_per_link_cons, counted_once, IH.
    + reflexivity.
    + intros k' Hk'. apply Href. right. exact Hk'.
    + exact Hnd.
    + apply Href. left. reflexivity.
Qed.

Lemma clicks_per_link_perm (cs : list Click.t) (ls ls' : list Link.t) :
  Permutation ls ls' -> clicks_per_link cs ls = clicks_per_link cs ls'.
Proof.
  induction 1 as [| x l l' _ IH | x y l | l l' l'' _ IH1 _ IH2].
  - reflexivity.
  - rewrite !clicks_per_link_step, IH. reflexivity.
  - rewrite !clicks_per_link_step. lia.
  - rewrite IH1. exact IH2.
Qed.

Lemma sum_total_clicks_stats (w : World) (ls : list Link.t) :
  sum_total_clicks (map (stats_of w) ls) = clicks_per_link (clicks w) ls.
Proof.
  induction ls as [|x ls IH]; [reflexivity|].
  rewrite clicks_per_link_step, <- IH. reflexivity.
Qed.

(** X15. Every click is counted exactly once: starting from empty
    tables, after any sequence of calls the click counts of the stored
    links add up to the number of stored clicks, and whenever the store
    holds at most 100 links the listing [get_stats(page=1, limit=100)]
    shows every link with [total_clicks] values that add up to the number
    of stored clicks. *)
Theorem click_totals_add_up (e : nat -> nat) (c : nat -> datetime)
        (z : datetime -> datetime) (cs : list call) :
  let w := after_all cs (fresh_world e c z) in
  clicks_per_link (clicks w) (links w) = List.length (clicks w) /\
  (List.length (links w) <= 100 ->
   exists stats,
     get_stats (Some 1%Z) (Some 100%Z) w = (Ok stats, w) /\
     List.length (Stats.links stats) = List.length (links w) /\
     sum_total_clicks (Stats.links stats) = List.length (clicks w)).
Proof.
  intros w.
  assert (Hids : link_ids_ok w).
  { apply link_ids_ok_after_all. split; [constructor | intros l []]. }
  assert (Href : clicks_reference_links w).
  { apply clicks_reference_links_after_all. intros k []. }
  assert (Htotal : clicks_per_link (clicks w) (links w) = List.length (clicks w))
    by (apply clicks_per_link_total; [exact (proj1 Hids) | exact Href]).
  split; [exact Htotal|].
  intros Hsmall. eexists.
  split; [apply get_stats_ok; [lia | vm_compute; discriminate]|].
  cbn [Stats.links].
  assert (Hwin : page_window (Z.max 1 1) (Z.min 100 100) (links w)
                 = order_by_created_at_desc (links w)).
  { unfold page_window. cbn [Z.max Z.min Z.compare Pos.compare Pos.compare_cont
                               Z.sub Z.mul Z.add Z.opp Z.pos_sub Z.to_nat skipn].
    apply firstn_all2.
    rewrite (Permutation_length (order_by_created_at_desc_perm (links w))).
    change (Z.to_nat 100) with (Pos.to_nat 100). lia. }
  rewrite Hwin. split.
  - rewrite length_map.
    apply (Permutation_length (order_by_created_at_desc_perm (links w))).
  - rewrite sum_total_clicks_stats,
      (clicks_per_link_perm _ _ _ (order_by_created_at_desc_perm (links w))).
    exact Htotal.
Qed.

(* ================================================================== *)
(** * Distinct URLs, distinct codes *)
(* ================================================================== *)

Lemma post_link_stored (url base : string) (w w1 : World)
      (response : LinkResponse.t) (status : Z) :
  NoDup (map Link.short_code (links w)) ->
  post_link url base w = (Ok (response, status), w1) ->
  NoDup (map Link.short_code (links w1)) /\
  extends (links w) (links w1) /\
  exists l, In l (links w1) /\ Link.target_url l = url /\
            Link.short_code l = LinkResponse.short_code response.
Proof.
  intros Hnd. unfold post_link, bind.
  destruct (create_link url w) as [[[l b]|e] w'] eqn:Hc; [|discriminate].
  intros H.
  destruct (create_link_cases _ _ _ _ _ Hc) as (Hu & Hin & _ & Hcase).
  assert (Hr : LinkResponse.short_code response = Link.short_code l /\ w1 = w')
    by (destruct b; unfold ret in H; inversion H; split; reflexivity).
  destruct Hr as [Hcode ->].
  repeat split.
  - destruct Hcase as [(_ & -> & _) | (_ & _ & -> & Hv)]; [exact Hnd|].
    apply NoDup_map_snoc; [exact Hnd | apply violates_unique_false_code; exact Hv].
  - destruct Hcase as [(_ & -> & _) | (_ & _ & -> & _)];
      [apply extends_refl | exists [l]; reflexivity].
  - exists l. repeat split; [exact Hin | exact Hu | symmetry; exact Hcode].
Qed.

(** X16. Distinct URLs get distinct codes: in a store whose short codes
    are pairwise distinct, when two [POST /links] requests for different
    URLs are both answered, one after the other, the two replies carry
    different [short_code]s, whether the links were new or already
    stored. *)
Theorem different_urls_different_codes (url1 url2 base1 base2 : string)
        (w w1 w2 : World) (r1 r2 : LinkResponse.t) (s1 s2 : Z) :
  NoDup (map Link.short_code (links w)) ->
  post_link url1 base1 w = (Ok (r1, s1), w1) ->
  post_link url2 base2 w1 = (Ok (r2, s2), w2) ->
  url1 <> url2 ->
  LinkResponse.short_code r1 <> LinkResponse.short_code r2.
Proof.
  intros Hnd H1 H2 Hne Hcode.
  destruct (post_link_stored _ _ _ _ _ _ Hnd H1)
    as (Hnd1 & _ & l1 & Hin1 & Hu1 & Hc1).
  destruct (post_link_stored _ _ _ _ _ _ Hnd1 H2)
    as (Hnd2 & [added Hext] & l2 & Hin2 & Hu2 & Hc2).
  assert (Hin1' : In l1 (links w2))
    by (rewrite Hext; apply in_or_app; left; exact Hin1).
  assert (Heq : l1 = l2).
  { apply (NoDup_map_injective Link.short_code (links w2)); try assumption.
    congruence. }
  apply Hne. congruence.
Qed.

Lemma different_urls_different_codes_witness :
  NoDup (map Link.short_code (links empty_world)) /\
  "https://fiverr.com/jane/web-design" <> "https://fiverr.com/jane/logo" /\
  post_link "https://fiverr.com/jane/web-design" "http://testserver/" empty_world
  = (Ok (LinkResponse.mk "ahov29" "http://testserver/ahov29"
           "https://fiverr.com/jane/web-design" noon, 201%Z), one_link_world) /\
  post_link "https://fiverr.com/jane/logo" "http://testserver/" one_link_world
  = (Ok (LinkResponse.mk "gnu18f" "http://testserver/gnu18f"
           "https://fiverr.com/jane/logo" noon, 201%Z), two_links_world) /\
  "ahov29" <> "gnu18f".
Proof.
  assert (Hnd : NoDup (map Link.short_code (links empty_world))) by constructor.
  assert (Hne : "https://fiverr.com/jane/web-design"
                <> "https://fiverr.com/jane/logo") by discriminate.
  assert (H1 : post_link "https://fiverr.com/jane/web-design"
                 "http://testserver/" empty_world
               = (Ok (LinkResponse.mk "ahov29" "http://testserver/ahov29"
                        "https://fiverr.com/jane/web-design" noon, 201%Z),
                  one_link_world))
    by (vm_compute; reflexivity).
  assert (H2 : post_link "https://fiverr.com/jane/logo" "http://testserver/"
                 one_link_world
               = (Ok (LinkResponse.mk "gnu18f" "http://testserver/gnu18f"
                        "https://fiverr.com/jane/logo" noon, 201%Z),
                  two_links_world))
    by (vm_compute; reflexivity).
  split; [exact Hnd|]. split; [exact Hne|]. split; [exact H1|]. split; [exact H2|].
  exact (different_urls_different_codes _ _ _ _ _ _ _ _ _ _ _ Hnd H1 H2 Hne).
Defined.
